(** * pyflot.graph: a shallow embedding of the Flot chart model

    The module [pyflot/graph.py] is Python 2 code working on dynamically
    typed values.  The embedding represents the values the code handles
    as an inductive type, exceptions as an explicit result type, and the
    mutable instance ([self._series], [self._options]) by state passing:
    every method takes the instance and returns the instance it leaves
    behind, also when it raises. *)

From Stdlib Require Import ZArith List String Ascii Bool Floats Lia.
Import ListNotations.
Local Open Scope string_scope.
Local Open Scope list_scope.
Local Open Scope Z_scope.
Set Warnings "-register-all".

(** ** Exceptions and results *)

Inductive exn : Type :=
| MissingDataException
| DuplicateLabelException
| TypeError
| AttributeError
| KeyError
| IndexError
| ValueError
| OverflowError
| ZeroDivisionError.

Inductive res (A : Type) : Type :=
| Ok (a : A)
| Raise (e : exn).
Arguments Ok {A} a.
Arguments Raise {A} e.

Definition bind {A B : Type} (m : res A) (k : A -> res B) : res B :=
  match m with
  | Ok a => k a
  | Raise e => Raise e
  end.

Notation "x <- m ;; k" := (bind m (fun x => k))
  (at level 100, m at next level, right associativity).

Fixpoint mapM {A B : Type} (f : A -> res B) (l : list A) : res (list B) :=
  match l with
  | [] => Ok []
  | a :: l' => b <- f a ;; bs <- mapM f l' ;; Ok (b :: bs)
  end.

(** ** Python values *)

(** A [datetime.date] or [datetime.datetime] instance: the calendar day
    and, for a datetime, the time of day (hour, minute, second). *)
Record date : Type := mkdate {
  year : Z;
  month : Z;
  day : Z;
  clock : option (Z * Z * Z)
}.

(** The values of the embedding.  [VInt] is a Python 2 integer ([int],
    and [long] where arithmetic leaves the machine range); [VFloat] is a
    binary64 float; dictionaries have string keys and are kept as
    association lists in insertion order, each key at most once. *)
Inductive value : Type :=
| VNone
| VBool (b : bool)
| VInt (n : Z)
| VFloat (f : float)
| VStr (s : string)
| VDate (d : date)
| VTuple (xs : list value)
| VList (xs : list value)
| VDict (kvs : list (string * value)).

Definition dict : Type := list (string * value).

(** [key in d] and [d.get(key)] *)
Fixpoint dict_get (d : dict) (k : string) : option value :=
  match d with
  | [] => None
  | (k', v) :: d' => if String.eqb k k' then Some v else dict_get d' k
  end.

Definition dict_mem (d : dict) (k : string) : bool :=
  match dict_get d k with Some _ => true | None => false end.

(** [d[key] = v]: an existing key keeps its place, a new one goes last. *)
Fixpoint dict_set (d : dict) (k : string) (v : value) : dict :=
  match d with
  | [] => [(k, v)]
  | (k', v') :: d' =>
      if String.eqb k k' then (k', v) :: d' else (k', v') :: dict_set d' k v
  end.

(** [d.update(u)] of the built-in dict: a shallow merge. *)
Definition dict_update (d u : dict) : dict :=
  fold_left (fun acc kv => dict_set acc (fst kv) (snd kv)) u d.

(** Truth value of a Python object ([if x], [not x]). *)
Definition truthy (v : value) : bool :=
  match v with
  | VNone => false
  | VBool b => b
  | VInt n => negb (n =? 0)
  | VFloat f => negb (PrimFloat.eqb f 0%float)
  | VStr s => negb (String.eqb s "")
  | VDate _ => true
  | VTuple xs | VList xs => match xs with [] => false | _ => true end
  | VDict kvs => match kvs with [] => false | _ => true end
  end.

(** [isinstance(v, collections.Mapping)] *)
Definition is_mapping (v : value) : bool :=
  match v with VDict _ => true | _ => false end.

(** [d.get(k, default)]: only a mapping has the method. *)
Definition get_default (d : value) (k : string) (dflt : value) : res value :=
  match d with
  | VDict kvs => Ok (match dict_get kvs k with Some v => v | None => dflt end)
  | _ => Raise AttributeError
  end.

(** [d[k] = v] with a string key: item assignment on anything but a
    dict is a [TypeError]. *)
Definition setitem (d : value) (k : string) (v : value) : res value :=
  match d with
  | VDict kvs => Ok (VDict (dict_set kvs k v))
  | _ => Raise TypeError
  end.

(** ** [update]: recursive update of nested dicts (lines 27-39)

    [d] is mutated in place and returned; the embedding returns the
    updated value. *)
Fixpoint update (d : value) (u : value) {struct u} : res value :=
  match u with
  | VDict items =>
      (fix loop (d : value) (items : list (string * value)) {struct items}
         : res value :=
         match items with
         | [] => Ok d
         | (k, v) :: rest =>
             d' <- (match v with
                    | VDict _ =>
                        sub <- get_default d k (VDict []) ;;
                        r <- update sub v ;;
                        setitem d k r
                    | _ => setitem d k v
                    end) ;;
             loop d' rest
         end) d items
  | _ => Raise AttributeError
  end.

(** ** The model instance *)

Record Flot : Type := mkFlot {
  _series : list dict;
  _options : value
}.

(** [Flot.__init__] (lines 68-78).  [bases] is the reversed method
    resolution order of the instantiated class; each class appears with
    the [options] attribute that [hasattr]/attribute lookup finds on it,
    if any. *)
Fixpoint init_options (opts : value) (bases : list (option value))
  : res value :=
  match bases with
  | [] => Ok opts
  | None :: rest => init_options opts rest
  | Some o :: rest => opts' <- update opts o ;; init_options opts' rest
  end.

Definition __init__ (bases : list (option value)) : res Flot :=
  opts <- init_options (VDict []) bases ;;
  Ok {| _series := []; _options := opts |}.

(** ** Built-ins used by the bar-width computation *)

(** [len(v)] *)
Definition len (v : value) : res Z :=
  match v with
  | VStr s => Ok (Z.of_nat (String.length s))
  | VTuple xs | VList xs => Ok (Z.of_nat (List.length xs))
  | VDict kvs => Ok (Z.of_nat (List.length kvs))
  | _ => Raise TypeError
  end.

(** The items met when iterating over [v]: the characters of a string,
    the elements of a tuple or list, the keys of a dict. *)
Definition iter (v : value) : res (list value) :=
  match v with
  | VStr s => Ok (map (fun c => VStr (String c EmptyString)) (list_ascii_of_string s))
  | VTuple xs | VList xs => Ok xs
  | VDict kvs => Ok (map (fun kv => VStr (fst kv)) kvs)
  | _ => Raise TypeError
  end.

(** [v[0]] *)
Definition getitem0 (v : value) : res value :=
  match v with
  | VTuple xs | VList xs =>
      match xs with [] => Raise IndexError | x :: _ => Ok x end
  | VStr s =>
      match s with
      | EmptyString => Raise IndexError
      | String c _ => Ok (VStr (String c EmptyString))
      end
  | VDict _ => Raise KeyError
  | _ => Raise TypeError
  end.

(** Numbers: [bool] is a subclass of [int]. *)
Inductive num : Type :=
| NInt (z : Z)
| NFloat (f : float).

Definition as_num (v : value) : option num :=
  match v with
  | VBool b => Some (NInt (if b then 1 else 0))
  | VInt n => Some (NInt n)
  | VFloat f => Some (NFloat f)
  | _ => None
  end.

Fixpoint as_nums (xs : list value) : option (list num) :=
  match xs with
  | [] => Some []
  | x :: xs' =>
      match as_num x, as_nums xs' with
      | Some n, Some ns => Some (n :: ns)
      | _, _ => None
      end
  end.

(** Integer to binary64, rounding to nearest even. *)
Definition Z2F (z : Z) : float := SF2Prim (binary_normalize prec emax z 0 false).

(** [float(n)] of an integer: too large an integer is an [OverflowError]. *)
Definition float_of_int (z : Z) : res float :=
  let f := Z2F z in
  if is_infinity f then Raise OverflowError else Ok f.

(** [int(f)]: truncation toward zero. *)
Definition int_of_float (f : float) : res Z :=
  match Prim2SF f with
  | S754_nan => Raise ValueError
  | S754_infinity _ => Raise OverflowError
  | S754_zero _ => Ok 0
  | S754_finite neg m e =>
      let a := if 0 <=? e then Z.pos m * 2 ^ e else Z.pos m / 2 ^ (- e) in
      Ok (if neg then - a else a)
  end.

(** Exact comparison of an integer with a float; [None] for a NaN. *)
Definition cmp_int_float (z : Z) (f : float) : option comparison :=
  match Prim2SF f with
  | S754_nan => None
  | S754_infinity neg => Some (if neg then Gt else Lt)
  | S754_zero _ => Some (z ?= 0)
  | S754_finite neg m e =>
      let mz := if neg then Z.neg m else Z.pos m in
      Some (if 0 <=? e then z ?= mz * 2 ^ e else z * 2 ^ (- e) ?= mz)
  end.

(** [a < b] on numbers. *)
Definition num_lt (a b : num) : bool :=
  match a, b with
  | NInt x, NInt y => x <? y
  | NFloat f, NFloat g => PrimFloat.ltb f g
  | NInt x, NFloat g =>
      match cmp_int_float x g with Some Lt => true | _ => false end
  | NFloat f, NInt y =>
      match cmp_int_float y f with Some Gt => true | _ => false end
  end.

(** [a - b] on numbers: an integer operand of a float is converted. *)
Definition num_sub (a b : num) : res num :=
  match a, b with
  | NInt x, NInt y => Ok (NInt (x - y))
  | NFloat f, NFloat g => Ok (NFloat (f - g)%float)
  | NInt x, NFloat g => f <- float_of_int x ;; Ok (NFloat (f - g)%float)
  | NFloat f, NInt y => g <- float_of_int y ;; Ok (NFloat (f - g)%float)
  end.

(** [min(xs)] and [max(xs)]: the first item is kept until a later one
    compares strictly below (above) it.  An empty list is a
    [ValueError].  The embedding computes them on numbers only: with a
    value of another type among the [xs], [min], [max] or the operations
    that follow them in [calculate_bar_width] ([xmax - xmin], then
    [float(w)]) raise a [TypeError] whatever the order of the items,
    which is the outcome given here. *)
Definition py_min (xs : list value) : res num :=
  match xs with
  | [] => Raise ValueError
  | _ =>
      match as_nums xs with
      | Some (n :: ns) => Ok (fold_left (fun m y => if num_lt y m then y else m) ns n)
      | _ => Raise TypeError
      end
  end.

Definition py_max (xs : list value) : res num :=
  match xs with
  | [] => Raise ValueError
  | _ =>
      match as_nums xs with
      | Some (n :: ns) => Ok (fold_left (fun m y => if num_lt m y then y else m) ns n)
      | _ => Raise TypeError
      end
  end.

(** [max] of a list of integers (the lengths). *)
Definition max_int (ns : list Z) : res Z :=
  match ns with
  | [] => Raise ValueError
  | n :: ns' => Ok (fold_left (fun m y => if m <? y then y else m) ns' n)
  end.

(** [float(w)] of a number *)
Definition py_float (w : num) : res float :=
  match w with
  | NInt z => float_of_int z
  | NFloat f => Ok f
  end.

(** [f / n] for a float [f] and an integer [n] *)
Definition float_div_int (f : float) (n : Z) : res float :=
  d <- float_of_int n ;;
  if PrimFloat.eqb d 0%float then Raise ZeroDivisionError else Ok (f / d)%float.

(** [s['data']] *)
Definition getitem (d : dict) (k : string) : res value :=
  match dict_get d k with
  | Some v => Ok v
  | None => Raise KeyError
  end.

(** ** [Flot.calculate_bar_width] (lines 183-192) *)
Definition calculate_bar_width (self : Flot) : res float :=
  lens <- mapM (fun s => d <- getitem s "data" ;; len d) (_series self) ;;
  slices <- max_int lens ;;
  datas <- mapM (fun s => getitem s "data") (_series self) ;;
  pairs <- mapM iter datas ;;
  xs <- mapM getitem0 (List.concat pairs) ;;
  xmin <- py_min xs ;;
  xmax <- py_max xs ;;
  w <- num_sub xmax xmin ;;
  fw <- py_float w ;;
  float_div_int fw slices.

(** ** [Flot.prepare_series] (lines 194-205)

    [series['bars']['barWidth'] = w] changes the hint object in place;
    the function returns the entry as it is afterwards.  Here every
    stored object is held by value, which is the source's behaviour for
    a hint object that is stored at that one place only.  When the
    caller has given one dict for several hints or several series, the
    write of line 204 shows at every place that holds it:
    [prepare_series_shared] below is the function with the objects that
    are held at several places named. *)
Definition prepare_series (self : Flot) (series : dict) : res dict :=
  if dict_mem series "bars" then
    w <- calculate_bar_width self ;;
    if truthy (VFloat w) then
      bars <- getitem series "bars" ;;
      bars' <- setitem bars "barWidth" (VFloat w) ;;
      Ok (dict_set series "bars" bars')
    else Ok series
  else Ok series.

(** ** The [series] property (lines 89-96)

    [[self.prepare_series(s) for s in self._series]]: the entries are
    prepared first to last.  Each [s] is the stored entry itself, so what
    [prepare_series] writes into it stays in the registry: [done] holds
    the entries already prepared, [todo] those still to come, and the
    registry during a step is [done ++ todo].  The instance returned is
    the one left behind, also when a step raises.  [series_shared] below
    is the property with hint objects that are held at several
    places. *)
Fixpoint prepare_all (opts : value) (done todo : list dict)
  : Flot * res (list dict) :=
  match todo with
  | [] => (mkFlot done opts, Ok [])
  | s :: rest =>
      match prepare_series (mkFlot (done ++ s :: rest) opts) s with
      | Raise e => (mkFlot (done ++ s :: rest) opts, Raise e)
      | Ok s' =>
          let (self', r) := prepare_all opts (done ++ [s']) rest in
          (self', bs <- r ;; Ok (s' :: bs))
      end
  end.

Definition series (self : Flot) : Flot * res (list dict) :=
  prepare_all (_options self) [] (_series self).

(** ** Adding series *)

Definition LINE_TYPES : list string := ["bars"; "lines"; "points"].

(** [type(series) is int] *)
Definition is_int (v : value) : bool :=
  match v with VInt _ => true | _ => false end.

(** [ts, val = item]: the item is iterated and must yield two values. *)
Definition unpack2 (item : value) : res (value * value) :=
  its <- iter item ;;
  match its with
  | [a; b] => Ok (a, b)
  | _ => Raise ValueError
  end.

(** [label in [x.get('label', None) for x in self._series]] for a
    string [label]: a stored label equals it when it is the same
    string. *)
Definition label_in (label : string) (entries : list dict) : bool :=
  existsb (fun x => match dict_get x "label" with
                    | Some (VStr l) => String.eqb label l
                    | _ => false
                    end) entries.

(** The body of the loop over [LINE_TYPES] (lines 158-163). *)
Definition set_line_type (kwargs : dict) (new_series : dict) (line_type : string)
  : dict :=
  match dict_get kwargs line_type with
  | Some v =>
      if is_mapping v then dict_set new_series line_type v
      else dict_set new_series line_type (VDict [("show", VBool true)])
  | None => new_series
  end.

Section Platform.

(** [time.mktime(ts.timetuple())]: the platform's conversion of a
    calendar value, read in local time, to seconds since the epoch.  It
    depends on the time zone of the machine and is a parameter; [None]
    stands for a value the platform cannot represent, for which
    [time.mktime] raises an [OverflowError]. *)
Variable mktime : date -> option float.

(** One item of the comprehension of lines 149-150:
    [(int(time.mktime(ts.timetuple()) * 1000), val)]. *)
Definition to_millis (item : value) : res value :=
  p <- unpack2 item ;;
  match fst p with
  | VDate d =>
      secs <- match mktime d with
              | Some f => Ok f
              | None => Raise OverflowError
              end ;;
      ms <- int_of_float (secs * 1000)%float ;;
      Ok (VTuple [VInt ms; snd p])
  | _ => Raise AttributeError
  end.

(** Lines 144-151: detection and conversion of a time series.  The
    result is the data to store and the options left behind. *)
Definition detect_time_series (opts : value) (series : value)
  : res (value * value) :=
  match series with
  | VList xs =>
      first <- getitem0 series ;;
      testatom <- getitem0 first ;;
      match testatom with
      | VDate _ =>
          conv <- mapM to_millis xs ;;
          opts' <- setitem opts "xaxis" (VDict [("mode", VStr "time")]) ;;
          Ok (VList conv, opts')
      | _ => Ok (series, opts)
      end
  | _ => Ok (series, opts)
  end.

(** [Flot.add_series] (lines 126-167).  [label] is [None] or a string;
    [options] is the keyword of that name ([VNone] when absent);
    [kwargs] holds the remaining keyword arguments. *)
Definition add_series (self : Flot) (series : value) (label : option string)
           (options : value) (kwargs : dict) : Flot * res unit :=
  if negb (is_int series) && negb (truthy series) then
    (self, Raise MissingDataException)
  else
    match detect_time_series (_options self) series with
    | Raise e => (self, Raise e)
    | Ok (data, opts) =>
        let self1 := mkFlot (_series self) opts in
        let new_series := [("data", data)] in
        let dup := match label with
                   | Some l => truthy (VStr l) && label_in l (_series self1)
                   | None => false
                   end in
        if dup then (self1, Raise DuplicateLabelException)
        else
          let new_series :=
            match label with
            | Some l =>
                if truthy (VStr l) then dict_update new_series [("label", VStr l)]
                else new_series
            | None => new_series
            end in
          let new_series := fold_left (set_line_type kwargs) LINE_TYPES new_series in
          let new_series :=
            match options with
            | VDict o => dict_update new_series o
            | _ => new_series
            end in
          (mkFlot (_series self1 ++ [new_series]) opts, Ok tt)
    end.

(** [Flot.add_series_type] (lines 120-124):
    [method(series, label, **{line_type: True})].  [label] is passed on,
    [kwargs] is not.  [line_type] becomes the name of a keyword argument
    of [add_series]: when it is the name of an argument the call gives
    already ([self], [series], [label]) the call raises a [TypeError]
    (multiple values for the argument) before [add_series] runs; the
    name [options] binds the parameter of that name; any other name goes
    into the keyword arguments of [add_series]. *)
Definition add_series_type (self : Flot) (line_type : string) (series : value)
           (label : option string) (kwargs : dict) : Flot * res unit :=
  if existsb (String.eqb line_type) ["self"; "series"; "label"] then
    (self, Raise TypeError)
  else if String.eqb line_type "options" then
    add_series self series label (VBool true) []
  else add_series self series label VNone [(line_type, VBool true)].

End Platform.

(** ** [Flot.__getattr__] (lines 107-118) *)

(** [s.split(sep)] for a one-character separator *)
Fixpoint split_on (sep : ascii) (s : string) : list string :=
  match s with
  | EmptyString => [EmptyString]
  | String c s' =>
      if Ascii.eqb c sep then EmptyString :: split_on sep s'
      else match split_on sep s' with
           | [] => [String c EmptyString]
           | w :: ws => String c w :: ws
           end
  end.

(** [s[4:]] *)
Definition drop4 (s : string) : string :=
  substring 4 (String.length s - 4) s.

(** The attribute lookup returns [partial(self.add_series_type,
    value[4:])]; the embedding returns the line type given to the
    partial. *)
Definition __getattr__ (value : string) : res string :=
  if String.prefix "add_" value then
    match nth_error (split_on "_"%char value) 1 with
    | Some t =>
        if existsb (String.eqb t) LINE_TYPES then Ok (drop4 value)
        else Raise AttributeError
    | None => Raise IndexError
    end
  else Raise AttributeError.

(** The names that a call [self.add_<t>(series, label, **kwargs)] binds
    before its keyword arguments are looked at: the parameters of
    [add_series_type] (line 120), [self] by the bound method,
    [line_type] by the partial, [series] and [label] by position. *)
Definition bound_names : list string := ["self"; "line_type"; "series"; "label"].

(** Some keyword argument has the name of a parameter that is bound
    already: the call raises a [TypeError] (multiple values for the
    argument) and the body of [add_series_type] does not run. *)
Definition clashes (kwargs : dict) : bool :=
  existsb (fun kv => existsb (String.eqb (fst kv)) bound_names) kwargs.

(** A call [self.add_<t>(series, label, **kwargs)], with [series] and
    [label] given by position ([None] is the label [None]) and [kwargs]
    the keyword arguments of the call: the attribute lookup first, then
    the binding of the arguments of the partial it returns, then the
    body of [add_series_type]. *)
Definition call_shortcut (mktime : date -> option float) (self : Flot)
           (name : string) (series : value) (label : option string)
           (kwargs : dict) : Flot * res unit :=
  match __getattr__ name with
  | Ok line_type =>
      if clashes kwargs then (self, Raise TypeError)
      else add_series_type mktime self line_type series label kwargs
  | Raise e => (self, Raise e)
  end.

(** ** A sample platform

    A machine whose local time is UTC: the seconds since 1970-01-01 of a
    calendar value of the proleptic Gregorian calendar.  It instantiates
    the [mktime] parameter in the worked examples. *)
Definition days_from_civil (y m d : Z) : Z :=
  let y' := if m <=? 2 then y - 1 else y in
  let era := y' / 400 in
  let yoe := y' - era * 400 in
  let doy := (153 * (if 2 <? m then m - 3 else m + 9) + 2) / 5 + d - 1 in
  let doe := yoe * 365 + yoe / 4 - yoe / 100 + doy in
  era * 146097 + doe - 719468.

Definition utc_mktime (d : date) : option float :=
  let secs := match clock d with
              | Some (h, mi, s) => h * 3600 + mi * 60 + s
              | None => 0
              end in
  match float_of_int (days_from_civil (year d) (month d) (day d) * 86400 + secs) with
  | Ok f => Some f
  | Raise _ => None
  end.

(** ** Auxiliary notions used in the statements *)

(** The entry that lines 153-166 build from the data to store, the
    label and the keyword arguments. *)
Definition entry_of (data : value) (label : option string) (options : value)
           (kwargs : dict) : dict :=
  let e0 := match label with
            | Some l => if truthy (VStr l) then [("data", data); ("label", VStr l)]
                        else [("data", data)]
            | None => [("data", data)]
            end in
  let e1 := fold_left (set_line_type kwargs) LINE_TYPES e0 in
  match options with
  | VDict o => dict_update e1 o
  | _ => e1
  end.

(** The label is one the registry already carries. *)
Definition duplicate (label : option string) (entries : list dict) : bool :=
  match label with
  | Some l => truthy (VStr l) && label_in l entries
  | None => false
  end.

(** The data argument passes the checks of lines 141-151, which come
    before the label is looked at. *)
Definition data_accepted (mktime : date -> option float) (self : Flot)
           (series : value) : Prop :=
  (is_int series || truthy series) = true /\
  exists data opts, detect_time_series mktime (_options self) series = Ok (data, opts).

(** An empty value that is not a scalar: the empty string, tuple, list
    and dict. *)
Definition empty_container (v : value) : bool :=
  match v with
  | VStr s => String.eqb s ""
  | VTuple [] | VList [] | VDict [] => true
  | _ => false
  end.


(** [int(time.mktime(d.timetuple()) * 1000)], when it has a value. *)
Definition millis (mktime : date -> option float) (d : date) : option Z :=
  match mktime d with
  | Some f =>
      match int_of_float (f * 1000)%float with
      | Ok ms => Some ms
      | Raise _ => None
      end
  | None => None
  end.

(** [items] is a sequence of pairs [(x, y)] whose [x] are all calendar
    values that the platform converts, and [conv] is the same sequence
    with each [x] replaced by its milliseconds. *)
Definition temporal (mktime : date -> option float) (items conv : list value)
  : Prop :=
  Forall2 (fun item c =>
             exists d y ms,
               unpack2 item = Ok (VDate d, y) /\
               millis mktime d = Some ms /\
               c = VTuple [VInt ms; y]) items conv.

(** The extra options do not carry a ['data'] key. *)
Definition keeps_data (options : value) : Prop :=
  match options with
  | VDict o => ~ In "data" (map fst o)
  | _ => True
  end.

(** [opts[k1][k2]], when both keys are there. *)
Definition options_path (opts : value) (k1 k2 : string) : option value :=
  match opts with
  | VDict o =>
      match dict_get o k1 with
      | Some (VDict sub) => dict_get sub k2
      | _ => None
      end
  | _ => None
  end.

(** [v[k1][k2]] for a dict of dicts, when both keys are there (an entry
    is the dict [VDict e]). *)
Definition entry_path (e : dict) (k1 k2 : string) : option value :=
  options_path (VDict e) k1 k2.

(** The data of the entry is the sequence [pts], a list or a tuple. *)
Definition has_points (s : dict) (pts : list value) : Prop :=
  dict_get s "data" = Some (VList pts) \/ dict_get s "data" = Some (VTuple pts).


(** [m] is what [min] returns on the numbers [ns]: the first of the
    least items.  It is strictly below every item before it, and no
    item after it is strictly below it. *)
Definition first_least (m : num) (ns : list num) : Prop :=
  exists pre post,
    ns = pre ++ m :: post /\
    Forall (fun x => num_lt m x = true) pre /\
    Forall (fun x => num_lt x m = false) post.

(** [m] is what [max] returns on [ns]: the first of the greatest
    items. *)
Definition first_greatest (m : num) (ns : list num) : Prop :=
  exists pre post,
    ns = pre ++ m :: post /\
    Forall (fun x => num_lt x m = true) pre /\
    Forall (fun x => num_lt m x = false) post.

Definition is_min (m : Z) (xs : list Z) : Prop :=
  In m xs /\ Forall (fun x => m <= x) xs.

Definition is_max (m : Z) (xs : list Z) : Prop :=
  In m xs /\ Forall (fun x => x <= m) xs.






(** ** The option resolver as the specification words it

    "Start with empty mapping; for each source in order, recursively
    deep-merge it into the accumulator: for each key, if both existing
    and incoming values are mappings, merge recursively; otherwise the
    incoming value replaces the existing one."  [spec_merge existing
    incoming] is the value a key holds after the merge, [existing] being
    what it held before, if anything. *)
Fixpoint spec_merge (existing : option value) (incoming : value)
         {struct incoming} : value :=
  match incoming with
  | VDict u =>
      match existing with
      | Some (VDict d) =>
          VDict ((fix merge_items (d : dict) (u : list (string * value))
                    {struct u} : dict :=
                    match u with
                    | [] => d
                    | (k, v) :: u' =>
                        merge_items (dict_set d k (spec_merge (dict_get d k) v)) u'
                    end) d u)
      | _ => incoming
      end
  | _ => incoming
  end.

Definition spec_resolve (layers : list value) : value :=
  fold_left (fun acc src => spec_merge (Some acc) src) layers (VDict []).

(** Every dict reached through dict values holds each key once, as a
    Python dict does. *)
Fixpoint wf (v : value) : Prop :=
  match v with
  | VDict kvs =>
      NoDup (map fst kvs) /\
      (fix all (l : list (string * value)) : Prop :=
         match l with
         | [] => True
         | (_, x) :: l' => wf x /\ all l'
         end) kvs
  | _ => True
  end.

(** No key pairs an incoming mapping with an existing value that is not
    a mapping. *)
Fixpoint compatible (existing : option value) (incoming : value)
         {struct incoming} : Prop :=
  match incoming with
  | VDict u =>
      match existing with
      | None => True
      | Some (VDict d) =>
          (fix all (u : list (string * value)) : Prop :=
             match u with
             | [] => True
             | (k, v) :: u' => compatible (dict_get d k) v /\ all u'
             end) u
      | Some _ => False
      end
  | _ => True
  end.

(** A chain of configuration sources that are well-formed mappings, each
    compatible with what the sources before it resolve to. *)
Fixpoint chain_ok (acc : value) (layers : list value) : Prop :=
  match layers with
  | [] => True
  | src :: rest =>
      is_mapping src = true /\ wf src /\ compatible (Some acc) src /\
      chain_ok (spec_merge (Some acc) src) rest
  end.

(** The loop of [update] over the items of [u], and the loop of
    [spec_merge], as functions of their own. *)
Fixpoint update_items (d : value) (items : list (string * value)) : res value :=
  match items with
  | [] => Ok d
  | (k, v) :: rest =>
      d' <- (match v with
             | VDict _ =>
                 sub <- get_default d k (VDict []) ;;
                 r <- update sub v ;;
                 setitem d k r
             | _ => setitem d k v
             end) ;;
      update_items d' rest
  end.

Fixpoint merge_items (d : dict) (u : list (string * value)) : dict :=
  match u with
  | [] => d
  | (k, v) :: u' => merge_items (dict_set d k (spec_merge (dict_get d k) v)) u'
  end.

(** What [update] does with an incoming mapping when the existing value
    is [ex] (the empty dict standing in for an absent one). *)
Definition update_agrees_at (v : value) : Prop :=
  wf v -> is_mapping v = true ->
  forall ex, compatible ex v ->
    update (match ex with Some x => x | None => VDict [] end) v
    = Ok (spec_merge ex v).

(** Induction on values through the values of dicts. *)
Section ValueInduction.

Variable P : value -> Prop.
Hypothesis Hother : forall v, is_mapping v = false -> P v.
Hypothesis Hdict : forall kvs, Forall (fun kv => P (snd kv)) kvs -> P (VDict kvs).

Fixpoint value_dict_ind (v : value) : P v :=
  match v with
  | VDict kvs =>
      Hdict kvs
        ((fix go (l : list (string * value)) : Forall (fun kv => P (snd kv)) l :=
            match l with
            | [] => Forall_nil _
            | kv :: l' =>
                Forall_cons kv
                  (match kv as kv0 return P (snd kv0) with
                   | (_, x) => value_dict_ind x
                   end)
                  (go l')
            end) kvs)
  | VNone => Hother VNone eq_refl
  | VBool b => Hother (VBool b) eq_refl
  | VInt n => Hother (VInt n) eq_refl
  | VFloat f => Hother (VFloat f) eq_refl
  | VStr s => Hother (VStr s) eq_refl
  | VDate d => Hother (VDate d) eq_refl
  | VTuple xs => Hother (VTuple xs) eq_refl
  | VList xs => Hother (VList xs) eq_refl
  end.

End ValueInduction.

(** ** Notions used in the further properties *)

Definition is_date (v : value) : bool :=
  match v with VDate _ => true | _ => false end.

(** Data that lines 144-151 leave alone: a value that is not a list and
    passes the test of line 141, or a list whose first item has a first
    component that is not a calendar value. *)
Definition plain_data (series : value) : Prop :=
  match series with
  | VList xs => exists p ps x, xs = p :: ps /\ getitem0 p = Ok x /\ is_date x = false
  | _ => (is_int series || truthy series) = true
  end.

(** The string labels of the entries, in registry order. *)
Definition labels (entries : list dict) : list string :=
  flat_map (fun s => match dict_get s "label" with
                     | Some (VStr l) => [l]
                     | _ => []
                     end) entries.

(** The extra options do not carry a ['label'] key. *)
Definition keeps_label (options : value) : Prop :=
  match options with
  | VDict o => ~ In "label" (map fst o)
  | _ => True
  end.

(** [prepare_series] as a function of the outcome [cw] of the width
    computation (the computation is run only for an entry with a
    ['bars'] key; it does not change the instance). *)
Definition prepare_with (cw : res float) (s : dict) : res dict :=
  if dict_mem s "bars" then
    w <- cw ;;
    if truthy (VFloat w) then
      bars <- getitem s "bars" ;;
      bars' <- setitem bars "barWidth" (VFloat w) ;;
      Ok (dict_set s "bars" bars')
    else Ok s
  else Ok s.

(** The entries agree on every key but ['bars']. *)
Definition same_but_bars (s s' : dict) : Prop :=
  forall k, k <> "bars" -> dict_get s' k = dict_get s k.

(** Values without a length: [len] of them is a [TypeError]. *)
Definition unsized (v : value) : bool :=
  match v with
  | VNone | VBool _ | VInt _ | VFloat _ | VDate _ => true
  | _ => false
  end.

(** The [options] attributes found along the bases, in order. *)
Definition present (bases : list (option value)) : list value :=
  flat_map (fun b => match b with Some o => [o] | None => [] end) bases.

(** One turn of the loop of [update] (lines 34-38). *)
Definition update_step (d : value) (k : string) (v : value) : res value :=
  match v with
  | VDict _ =>
      sub <- get_default d k (VDict []) ;;
      r <- update sub v ;;
      setitem d k r
  | _ => setitem d k v
  end.

(** The existing value that [update] merges an incoming mapping into:
    [d.get(k, {})]. *)
Definition existing_or_empty (d : dict) (k : string) : value :=
  match dict_get d k with Some x => x | None => VDict [] end.

(** The text of [s] up to its first underscore: [s.split('_')[0]]. *)
Definition first_segment (s : string) : string :=
  hd "" (split_on "_"%char s).

(** Updating twice by the same mapping is updating once. *)
Definition update_idempotent_at (v : value) : Prop :=
  wf v -> forall d d', update d v = Ok d' -> update d' v = Ok d'.

(** ** Hint objects held at several places

    [add_series] stores the objects it is given (lines 153-166) and line
    204 writes into the object that the entry holds under ['bars'], so
    the write shows wherever that object is stored.  [obj j k] names the
    object that entry [j] holds under key [k] when the object is held at
    other places too: two places hold one object exactly when they have
    the same name, and [None] is an object held at that place only. *)
Definition places : Type := nat -> string -> option nat.

Definition same_object (a b : option nat) : bool :=
  match a, b with
  | Some x, Some y => Nat.eqb x y
  | _, _ => false
  end.

(** The place (entry [j], key [k]) holds the object that entry [i] holds
    under ['bars']. *)
Definition holds_hint (obj : places) (i j : nat) (k : string) : bool :=
  (Nat.eqb j i && String.eqb k "bars") || same_object (obj i "bars") (obj j k).

(** What entry [j], and the registry from entry [j] on, look like once
    the object that entry [i] holds under ['bars'] has become [b']. *)
Definition write_entry (obj : places) (i : nat) (b' : value) (j : nat) (e : dict)
  : dict :=
  map (fun kv => if holds_hint obj i j (fst kv) then (fst kv, b') else kv) e.

Fixpoint write_from (obj : places) (i : nat) (b' : value) (j : nat)
         (reg : list dict) : list dict :=
  match reg with
  | [] => []
  | e :: rest => write_entry obj i b' j e :: write_from obj i b' (S j) rest
  end.

(** [prepare_series] on the stored entry [s], which is entry [i] of the
    registry, with the write of line 204 made into the object: the
    instance left behind has the new content at every place that holds
    it. *)
Definition prepare_series_shared (obj : places) (self : Flot) (i : nat) (s : dict)
  : Flot * res unit :=
  if dict_mem s "bars" then
    match calculate_bar_width self with
    | Raise e => (self, Raise e)
    | Ok w =>
        if truthy (VFloat w) then
          match (bars <- getitem s "bars" ;;
                 setitem bars "barWidth" (VFloat w)) with
          | Raise e => (self, Raise e)
          | Ok b' =>
              (mkFlot (write_from obj i b' O (_series self)) (_options self),
               Ok tt)
          end
        else (self, Ok tt)
    end
  else (self, Ok tt).

(** The [series] property: the entries [i], [i+1], ... are prepared in
    turn ([n] bounds their number); the list returned holds the stored
    entries themselves, so it shows them as they are at the end. *)
Fixpoint series_shared_from (obj : places) (self : Flot) (i n : nat)
  : Flot * res (list dict) :=
  match n with
  | O => (self, Ok (_series self))
  | S n' =>
      match nth_error (_series self) i with
      | None => (self, Ok (_series self))
      | Some s =>
          match prepare_series_shared obj self i s with
          | (st, Ok _) => series_shared_from obj st (S i) n'
          | (st, Raise e) => (st, Raise e)
          end
      end
  end.

Definition series_shared (obj : places) (self : Flot) : Flot * res (list dict) :=
  series_shared_from obj self O (List.length (_series self)).





(** * Properties *)

(** ** Dictionaries *)

Section DictFacts.

Lemma dict_get_set_same (d : dict) k v : dict_get (dict_set d k v) k = Some v.
Proof.
  induction d as [|[k' v'] d IH]; simpl.
  - now rewrite String.eqb_refl.
  - destruct (String.eqb k k') eqn:E; simpl; rewrite E; auto.
Qed.

Lemma dict_get_set_other (d : dict) k k' v :
  k' <> k -> dict_get (dict_set d k v) k' = dict_get d k'.
Proof.
  intros Hne. induction d as [|[k0 v0] d IH]; simpl.
  - destruct (String.eqb_spec k' k); congruence.
  - destruct (String.eqb_spec k k0) as [->|]; simpl.
    + destruct (String.eqb_spec k' k0); congruence.
    + destruct (String.eqb_spec k' k0); auto.
Qed.

Lemma dict_get_update_notin (u d : dict) k :
  ~ In k (map fst u) -> dict_get (dict_update d u) k = dict_get d k.
Proof.
  unfold dict_update. revert d.
  induction u as [|[k0 v0] u IH]; simpl; intros d Hn; auto.
  rewrite IH by tauto. apply dict_get_set_other. intros ->. tauto.
Qed.

Lemma dict_get_update_in (u d : dict) k v :
  NoDup (map fst u) -> In (k, v) u -> dict_get (dict_update d u) k = Some v.
Proof.
  unfold dict_update. revert d.
  induction u as [|[k0 v0] u IH]; simpl; intros d Hnd Hin; [tauto|].
  inversion Hnd as [|? ? Hnotin Hnd']; subst.
  destruct Hin as [Heq|Hin].
  - inversion Heq; subst.
    fold (dict_update (dict_set d k v) u).
    rewrite dict_get_update_notin by assumption.
    apply dict_get_set_same.
  - now apply IH.
Qed.

End DictFacts.

(** ** The add-series operation *)

Section AddSeries.

Variable mktime : date -> option float.

Lemma add_series_missing self series label options kwargs :
  (is_int series || truthy series) = false ->
  add_series mktime self series label options kwargs
  = (self, Raise MissingDataException).
Proof.
  intros H. apply orb_false_elim in H as [Hi Ht].
  unfold add_series. now rewrite Hi, Ht.
Qed.

Lemma add_series_detect_raises self series label options kwargs e :
  (is_int series || truthy series) = true ->
  detect_time_series mktime (_options self) series = Raise e ->
  add_series mktime self series label options kwargs = (self, Raise e).
Proof.
  intros H Hd. unfold add_series.
  replace (negb (is_int series) && negb (truthy series)) with false
    by (rewrite <- negb_orb, H; reflexivity).
  now rewrite Hd.
Qed.

Lemma add_series_duplicate self series label options kwargs data opts :
  (is_int series || truthy series) = true ->
  detect_time_series mktime (_options self) series = Ok (data, opts) ->
  duplicate label (_series self) = true ->
  add_series mktime self series label options kwargs
  = (mkFlot (_series self) opts, Raise DuplicateLabelException).
Proof.
  intros H Hd Hdup. unfold add_series.
  replace (negb (is_int series) && negb (truthy series)) with false
    by (rewrite <- negb_orb, H; reflexivity).
  rewrite Hd. cbn [_series]. unfold duplicate in Hdup. now rewrite Hdup.
Qed.

Lemma add_series_ok self series label options kwargs data opts :
  (is_int series || truthy series) = true ->
  detect_time_series mktime (_options self) series = Ok (data, opts) ->
  duplicate label (_series self) = false ->
  add_series mktime self series label options kwargs
  = (mkFlot (_series self ++ [entry_of data label options kwargs]) opts, Ok tt).
Proof.
  intros H Hd Hdup. unfold add_series.
  replace (negb (is_int series) && negb (truthy series)) with false
    by (rewrite <- negb_orb, H; reflexivity).
  rewrite Hd. cbn [_series]. unfold duplicate in Hdup. rewrite Hdup.
  unfold entry_of. destruct label as [l|]; [destruct (truthy (VStr l))|];
    reflexivity.
Qed.

(** A successful call is one of the shape above. *)
Lemma add_series_ok_inv self series label options kwargs st :
  add_series mktime self series label options kwargs = (st, Ok tt) ->
  exists data opts,
    (is_int series || truthy series) = true /\
    detect_time_series mktime (_options self) series = Ok (data, opts) /\
    duplicate label (_series self) = false /\
    st = mkFlot (_series self ++ [entry_of data label options kwargs]) opts.
Proof.
  intros Hc.
  destruct (is_int series || truthy series) eqn:H.
  2:{ rewrite add_series_missing in Hc by assumption. discriminate. }
  destruct (detect_time_series mktime (_options self) series) as [[data opts]|e] eqn:Hd.
  2:{ rewrite (add_series_detect_raises _ _ _ _ _ e) in Hc by assumption.
      discriminate. }
  destruct (duplicate label (_series self)) eqn:Hdup.
  { rewrite (add_series_duplicate _ _ _ _ _ data opts) in Hc by assumption.
    discriminate. }
  rewrite (add_series_ok _ _ _ _ _ data opts) in Hc by assumption.
  exists data, opts. inversion Hc. auto.
Qed.

(** The registry is the same after every call that raises. *)
Lemma add_series_raise_registry self series label options kwargs st e :
  add_series mktime self series label options kwargs = (st, Raise e) ->
  _series st = _series self.
Proof.
  intros Hc.
  destruct (is_int series || truthy series) eqn:H.
  2:{ rewrite add_series_missing in Hc by assumption. now inversion Hc. }
  destruct (detect_time_series mktime (_options self) series) as [[data opts]|e'] eqn:Hd.
  2:{ rewrite (add_series_detect_raises _ _ _ _ _ e') in Hc by assumption.
      now inversion Hc. }
  destruct (duplicate label (_series self)) eqn:Hdup.
  { rewrite (add_series_duplicate _ _ _ _ _ data opts) in Hc by assumption.
    now inversion Hc. }
  rewrite (add_series_ok _ _ _ _ _ data opts) in Hc by assumption.
  discriminate.
Qed.

End AddSeries.

(** *** Missing data *)

Section MissingData.

Variable mktime : date -> option float.

Lemma mapM_to_millis_not_missing (xs : list value) :
  mapM (to_millis mktime) xs <> Raise MissingDataException.
Proof.
  induction xs as [|x xs IH]; simpl; [discriminate|].
  assert (Hx : to_millis mktime x <> Raise MissingDataException).
  { unfold to_millis, unpack2.
    destruct (iter x) as [its|e] eqn:Hi; simpl.
    - destruct its as [|a [|b [|c its]]]; simpl; try discriminate.
      destruct a; simpl; try discriminate.
      destruct (mktime d); simpl; try discriminate.
      unfold int_of_float.
      destruct (Prim2SF (f * 1000)); simpl; discriminate.
    - destruct x; simpl in Hi; inversion Hi; discriminate. }
  destruct (to_millis mktime x); simpl; [|congruence].
  destruct (mapM (to_millis mktime) xs); simpl; [discriminate|congruence].
Qed.

Lemma getitem0_not_missing (v : value) : getitem0 v <> Raise MissingDataException.
Proof.
  destruct v as [| | | |s| |xs|xs|]; simpl; try discriminate;
    solve [destruct xs; discriminate | destruct s; discriminate].
Qed.

Lemma detect_not_missing opts series :
  detect_time_series mktime opts series <> Raise MissingDataException.
Proof.
  unfold detect_time_series. destruct series; try discriminate.
  pose proof (getitem0_not_missing (VList xs)) as H0.
  destruct (getitem0 (VList xs)) as [first|e]; simpl; [|congruence].
  pose proof (getitem0_not_missing first) as H1.
  destruct (getitem0 first) as [atom|e]; simpl; [|congruence].
  destruct atom; try discriminate.
  pose proof (mapM_to_millis_not_missing xs) as H2.
  destruct (mapM (to_millis mktime) xs); simpl; [|congruence].
  destruct opts; simpl; discriminate.
Qed.

(** [MissingDataException] is raised exactly by the test of line 141:
    the data is not of type [int] and is false. *)
Lemma add_series_missing_iff self series label options kwargs :
  snd (add_series mktime self series label options kwargs)
  = Raise MissingDataException
  <-> (is_int series || truthy series) = false.
Proof.
  split.
  - intros Hr. destruct (is_int series || truthy series) eqn:H; [|reflexivity].
    exfalso.
    destruct (detect_time_series mktime (_options self) series)
      as [[data opts]|e] eqn:Hd.
    + destruct (duplicate label (_series self)) eqn:Hdup.
      * rewrite (add_series_duplicate _ _ _ _ _ _ data opts) in Hr by assumption.
        discriminate.
      * rewrite (add_series_ok _ _ _ _ _ _ data opts) in Hr by assumption.
        discriminate.
    + rewrite (add_series_detect_raises _ _ _ _ _ _ e) in Hr by assumption.
      simpl in Hr. inversion Hr; subst. now apply detect_not_missing in Hd.
  - intros H. now rewrite add_series_missing.
Qed.

(** An [int] passes the test of line 141 whatever its value. *)
Lemma add_series_int_not_missing self n label options kwargs :
  snd (add_series mktime self (VInt n) label options kwargs)
  <> Raise MissingDataException.
Proof.
  rewrite add_series_missing_iff. simpl. discriminate.
Qed.

(** C8: a call of the add-series operation whose data is an empty
    value that is not a scalar (the empty list, tuple, dict or string)
    raises [MissingDataException] and leaves the instance, and so the
    series registry, as it was: no entry is appended. *)
Theorem add_series_empty_raises self series label options kwargs :
  empty_container series = true ->
  add_series mktime self series label options kwargs
  = (self, Raise MissingDataException).
Proof.
  intros He. apply add_series_missing.
  destruct series as [| | | |s| |xs|xs|kvs]; simpl in *; try discriminate.
  - now rewrite He.
  - destruct xs; [reflexivity|discriminate].
  - destruct xs; [reflexivity|discriminate].
  - destruct kvs; [reflexivity|discriminate].
Qed.

(** C6: the float [0.0] is a scalar, and the add-series operation
    raises [MissingDataException] on it: the test of line 141 exempts
    values of type [int] only. *)
Theorem add_series_float_zero_missing self label options kwargs :
  add_series mktime self (VFloat 0%float) label options kwargs
  = (self, Raise MissingDataException).
Proof.
  apply add_series_missing. reflexivity.
Qed.

End MissingData.

Lemma add_series_empty_raises_witness :
  empty_container (VList []) = true /\
  add_series utc_mktime (mkFlot [[("data", VInt 7)]] (VDict [])) (VList [])
             (Some "a") VNone [("bars", VBool true)]
  = (mkFlot [[("data", VInt 7)]] (VDict []), Raise MissingDataException).
Proof.
  split; [reflexivity|].
  apply (add_series_empty_raises utc_mktime); reflexivity.
Defined.

(** *** Extra options, labels and the shortcut methods *)

Section Entries.

Variable mktime : date -> option float.

(** The extra options play no part in the success of a call. *)
Lemma add_series_options_irrelevant self series label options options' kwargs st :
  add_series mktime self series label options kwargs = (st, Ok tt) ->
  exists data,
    st = mkFlot (_series self ++ [entry_of data label options kwargs]) (_options st) /\
    add_series mktime self series label options' kwargs
    = (mkFlot (_series self ++ [entry_of data label options' kwargs]) (_options st),
       Ok tt).
Proof.
  intros Hc. apply add_series_ok_inv in Hc as (data & opts & H & Hd & Hdup & ->).
  exists data. split; [reflexivity|]. now apply add_series_ok.
Qed.

(** C10: the extra options are merged onto the entry last.  When the
    call without them succeeds and stores the entry [e], the call with
    the dict [o] succeeds as well and stores [e] updated by [o]: every
    key of [o], also ['data'], ['label'], ['bars'], ['lines'] and
    ['points'], holds the value [o] gives it, and the other keys are
    those of [e].  An [options] argument that is not a dict changes
    nothing: the call behaves as the one without it. *)
Theorem add_series_extra_options self series label kwargs :
  (forall options, is_mapping options = false ->
     add_series mktime self series label options kwargs
     = add_series mktime self series label VNone kwargs) /\
  (forall o st, NoDup (map fst o) ->
     add_series mktime self series label VNone kwargs = (st, Ok tt) ->
     exists e e',
       _series st = _series self ++ [e] /\
       add_series mktime self series label (VDict o) kwargs
       = (mkFlot (_series self ++ [e']) (_options st), Ok tt) /\
       (forall k v, In (k, v) o -> dict_get e' k = Some v) /\
       (forall k, ~ In k (map fst o) -> dict_get e' k = dict_get e k)).
Proof.
  split.
  - intros options Hm. unfold add_series.
    destruct options; try reflexivity. discriminate.
  - intros o st Hnd Hc.
    destruct (add_series_options_irrelevant _ _ _ _ (VDict o) _ _ Hc)
      as (data & Hst & Hc').
    exists (entry_of data label VNone kwargs), (entry_of data label (VDict o) kwargs).
    split; [rewrite Hst; reflexivity|]. split; [exact Hc'|].
    unfold entry_of. split.
    + intros k v Hin. now apply dict_get_update_in.
    + intros k Hn. now apply dict_get_update_notin.
Qed.

(** C3: with a non-empty label that a stored entry already carries,
    every call of the add-series operation raises and leaves the
    series registry as it was (same length, nothing appended, the
    first entry with the label still there); when the data argument
    passes the data checks, which come first, the exception is
    [DuplicateLabelException]. *)
Theorem add_series_duplicate_label self series label options kwargs :
  label <> "" ->
  label_in label (_series self) = true ->
  let r := add_series mktime self series (Some label) options kwargs in
  _series (fst r) = _series self /\
  (exists e, snd r = Raise e) /\
  (data_accepted mktime self series -> snd r = Raise DuplicateLabelException).
Proof.
  intros Hl Hin r.
  assert (Hdup : duplicate (Some label) (_series self) = true).
  { simpl. rewrite Hin. destruct (String.eqb_spec label ""); [contradiction|reflexivity]. }
  assert (Hraise : exists e, snd r = Raise e).
  { subst r. destruct (is_int series || truthy series) eqn:H.
    - destruct (detect_time_series mktime (_options self) series)
        as [[data opts]|e] eqn:Hd.
      + rewrite (add_series_duplicate _ _ _ _ _ _ data opts) by assumption.
        simpl. eauto.
      + rewrite (add_series_detect_raises _ _ _ _ _ _ e) by assumption.
        simpl. eauto.
    - rewrite add_series_missing by assumption. simpl. eauto. }
  split; [|split; [exact Hraise|]].
  - destruct Hraise as [e He]. apply (add_series_raise_registry mktime _ series (Some label) options kwargs _ e).
    subst r. destruct (add_series mktime self series (Some label) options kwargs).
    simpl in *. now subst.
  - intros [H (data & opts & Hd)]. subst r.
    now rewrite (add_series_duplicate _ _ _ _ _ _ data opts).
Qed.

Lemma set_line_types_true (t : string) (e : dict) :
  In t LINE_TYPES ->
  fold_left (set_line_type [(t, VBool true)]) LINE_TYPES e
  = fold_left (set_line_type [(t, VDict [("show", VBool true)])]) LINE_TYPES e.
Proof.
  unfold LINE_TYPES. simpl.
  intros [<-|[<-|[<-|[]]]]; reflexivity.
Qed.

(** The keyword arguments matter only through the entry built. *)
Lemma add_series_kwargs_ext self series label options kw kw' :
  (forall data, entry_of data label options kw = entry_of data label options kw') ->
  add_series mktime self series label options kw
  = add_series mktime self series label options kw'.
Proof.
  intros He.
  destruct (is_int series || truthy series) eqn:H.
  2:{ now rewrite !add_series_missing. }
  destruct (detect_time_series mktime (_options self) series)
    as [[data opts]|e] eqn:Hd.
  2:{ now rewrite !(add_series_detect_raises _ _ _ _ _ _ e). }
  destruct (duplicate label (_series self)) eqn:Hdup.
  - now rewrite !(add_series_duplicate _ _ _ _ _ _ data opts).
  - rewrite !(add_series_ok _ _ _ _ _ _ data opts) by assumption.
    now rewrite He.
Qed.

Lemma getattr_line_type (t : string) :
  In t LINE_TYPES -> __getattr__ ("add_" ++ t)%string = Ok t.
Proof.
  unfold LINE_TYPES. simpl.
  intros [<-|[<-|[<-|[]]]]; reflexivity.
Qed.

Lemma add_series_type_line_type self t series label kwargs :
  In t LINE_TYPES ->
  add_series_type mktime self t series label kwargs
  = add_series mktime self series label VNone [(t, VBool true)].
Proof.
  unfold LINE_TYPES. simpl. intros [<-|[<-|[<-|[]]]]; reflexivity.
Qed.

(** C7: for each line type [t], the shortcut [add_t] called with any
    data and label and with keyword arguments that do not name a
    parameter bound already leaves the instance and returns as the
    add-series operation does when called with the same data and label
    and the hint of [t] set to [True], which is stored as
    [{show: true}]: the keyword arguments of the shortcut, a mapping for
    [t] among them, are not passed on.  A keyword argument named like a
    bound parameter ([self], [line_type], [series], [label]) makes the
    call raise a [TypeError] and leaves the instance as it was. *)
Theorem shortcut_forces_show self t series label kwargs :
  In t LINE_TYPES ->
  (clashes kwargs = false ->
   call_shortcut mktime self ("add_" ++ t)%string series label kwargs
   = add_series mktime self series label VNone [(t, VBool true)]) /\
  add_series mktime self series label VNone [(t, VBool true)]
  = add_series mktime self series label VNone [(t, VDict [("show", VBool true)])] /\
  (clashes kwargs = true ->
   call_shortcut mktime self ("add_" ++ t)%string series label kwargs
   = (self, Raise TypeError)).
Proof.
  intros Ht. split; [|split].
  - intros Hc. unfold call_shortcut. rewrite getattr_line_type, Hc by assumption.
    now apply add_series_type_line_type.
  - apply add_series_kwargs_ext. intros data. unfold entry_of.
    now rewrite (set_line_types_true t).
  - intros Hc. unfold call_shortcut. now rewrite getattr_line_type, Hc.
Qed.

End Entries.

Lemma add_series_extra_options_witness :
  let self := mkFlot [] (VDict []) in
  let data := VList [VTuple [VInt 1; VInt 2]] in
  let o := [("data", VInt 9); ("color", VStr "red")] in
  exists e e',
    _series (mkFlot [[("data", data); ("label", VStr "a")]] (VDict []))
    = _series self ++ [e] /\
    add_series utc_mktime self data (Some "a") (VDict o) []
    = (mkFlot (_series self ++ [e']) (VDict []), Ok tt) /\
    (forall k v, In (k, v) o -> dict_get e' k = Some v) /\
    (forall k, ~ In k (map fst o) -> dict_get e' k = dict_get e k).
Proof.
  intros self data o.
  apply (proj2 (add_series_extra_options utc_mktime self data (Some "a") []) o
               (mkFlot [[("data", data); ("label", VStr "a")]] (VDict []))).
  - repeat constructor; simpl; intuition discriminate.
  - reflexivity.
Defined.

Lemma add_series_duplicate_label_witness :
  let self := mkFlot [[("data", VInt 7); ("label", VStr "a")]] (VDict []) in
  let r := add_series utc_mktime self (VList [VTuple [VInt 1; VInt 2]]) (Some "a")
                      (VDict [("color", VStr "red")]) [("bars", VBool true)] in
  _series (fst r) = _series self /\ snd r = Raise DuplicateLabelException.
Proof.
  intros self r.
  destruct (add_series_duplicate_label utc_mktime self
              (VList [VTuple [VInt 1; VInt 2]]) "a"
              (VDict [("color", VStr "red")]) [("bars", VBool true)])
    as (Hreg & _ & Hdup); [discriminate|reflexivity|].
  split; [exact Hreg|].
  apply Hdup. split; [reflexivity|].
  exists (VList [VTuple [VInt 1; VInt 2]]), (VDict []). reflexivity.
Defined.

Lemma shortcut_forces_show_witness :
  let self := mkFlot [] (VDict []) in
  let data := VList [VTuple [VInt 1; VInt 2]] in
  call_shortcut utc_mktime self "add_bars" data (Some "a")
                [("bars", VDict []); ("color", VStr "red")]
  = add_series utc_mktime self data (Some "a") VNone [("bars", VBool true)] /\
  add_series utc_mktime self data (Some "a") VNone [("bars", VBool true)]
  = add_series utc_mktime self data (Some "a") VNone
               [("bars", VDict [("show", VBool true)])] /\
  call_shortcut utc_mktime self "add_bars" data (Some "a")
                [("line_type", VStr "lines")]
  = (self, Raise TypeError).
Proof.
  intros self data.
  destruct (shortcut_forces_show utc_mktime self "bars" data (Some "a")
              [("bars", VDict []); ("color", VStr "red")]) as (H1 & H2 & _);
    [simpl; auto|].
  destruct (shortcut_forces_show utc_mktime self "bars" data (Some "a")
              [("line_type", VStr "lines")]) as (_ & _ & H3);
    [simpl; auto|].
  split; [apply H1; reflexivity|]. split; [exact H2|]. apply H3. reflexivity.
Defined.

(** The shortcut does not store a mapping given for its line type: the
    entry holds [{show: true}], not the mapping, and the instance differs
    from the one the add-series operation leaves when given the mapping. *)
Lemma shortcut_drops_mapping :
  let self := mkFlot [] (VDict []) in
  let data := VList [VTuple [VInt 1; VInt 2]] in
  let m := VDict [("show", VBool true); ("lineWidth", VInt 3)] in
  call_shortcut utc_mktime self "add_bars" data None [("bars", m)]
  = (mkFlot [[("data", data); ("bars", VDict [("show", VBool true)])]] (VDict []),
     Ok tt) /\
  add_series utc_mktime self data None VNone [("bars", m)]
  = (mkFlot [[("data", data); ("bars", m)]] (VDict []), Ok tt) /\
  call_shortcut utc_mktime self "add_bars" data None [("bars", m)]
  <> add_series utc_mktime self data None VNone [("bars", m)].
Proof.
  repeat split; try reflexivity. vm_compute. discriminate.
Qed.

(** *** Time series *)

Section TimeSeries.

Variable mktime : date -> option float.

Lemma temporal_mapM items conv :
  temporal mktime items conv -> mapM (to_millis mktime) items = Ok conv.
Proof.
  induction 1 as [|item c items conv (d & y & ms & Hu & Hm & ->) _ IH]; simpl.
  - reflexivity.
  - unfold to_millis at 1. rewrite Hu. simpl.
    unfold millis in Hm. destruct (mktime d) as [f|]; [|discriminate].
    simpl. destruct (int_of_float (f * 1000)) as [z|]; [|discriminate].
    inversion Hm; subst. simpl. now rewrite IH.
Qed.

Lemma unpack2_date_first item d y :
  unpack2 item = Ok (VDate d, y) -> getitem0 item = Ok (VDate d).
Proof.
  unfold unpack2. destruct item as [| | | |s| |xs|xs|kvs]; simpl; try discriminate.
  - destruct (list_ascii_of_string s) as [|a [|b [|c l]]]; simpl; discriminate.
  - destruct xs as [|a [|b [|c l]]]; simpl; try discriminate. congruence.
  - destruct xs as [|a [|b [|c l]]]; simpl; try discriminate. congruence.
  - destruct kvs as [|a [|b [|c l]]]; simpl; discriminate.
Qed.

Lemma detect_temporal o item items conv :
  temporal mktime (item :: items) conv ->
  detect_time_series mktime (VDict o) (VList (item :: items))
  = Ok (VList conv, VDict (dict_set o "xaxis" (VDict [("mode", VStr "time")]))).
Proof.
  intros Ht. pose proof (temporal_mapM _ _ Ht) as Hm.
  inversion Ht as [|? c ? conv' (d & y & ms & Hu & _) _]; subst.
  unfold detect_time_series. cbn [getitem0 bind].
  rewrite (unpack2_date_first _ _ _ Hu). cbn [bind].
  rewrite Hm. reflexivity.
Qed.

Lemma entry_of_data data label options kwargs :
  keeps_data options ->
  dict_get (entry_of data label options kwargs) "data" = Some data.
Proof.
  intros Hk. unfold entry_of.
  set (e0 := match label with
             | Some l => if truthy (VStr l) then [("data", data); ("label", VStr l)]
                         else [("data", data)]
             | None => [("data", data)]
             end).
  assert (H0 : dict_get e0 "data" = Some data).
  { subst e0. destruct label as [l|]; [destruct (truthy (VStr l))|]; reflexivity. }
  assert (H1 : dict_get (fold_left (set_line_type kwargs) LINE_TYPES e0) "data"
               = Some data).
  { unfold LINE_TYPES. simpl. unfold set_line_type.
    repeat match goal with
           | |- context [match dict_get kwargs ?k with _ => _ end] =>
               destruct (dict_get kwargs k) as [[]|]
           end; simpl;
      rewrite ?dict_get_set_other by discriminate; exact H0. }
  destruct options; try exact H1.
  simpl in Hk. now rewrite dict_get_update_notin.
Qed.

(** C4: when every pair of a non-empty list has a calendar value as
    its [x] and the platform converts each of them, the label is not
    in use and the extra options carry no ['data'] key, the
    add-series operation succeeds, the entry it appends holds every
    point with its [x] replaced by
    [int(time.mktime(x.timetuple()) * 1000)] and its [y] as it was,
    and [options.xaxis.mode] is ["time"] afterwards. *)
Theorem add_series_temporal self o item items conv label options kwargs :
  _options self = VDict o ->
  temporal mktime (item :: items) conv ->
  duplicate label (_series self) = false ->
  keeps_data options ->
  exists e st,
    add_series mktime self (VList (item :: items)) label options kwargs
    = (st, Ok tt) /\
    _series st = _series self ++ [e] /\
    dict_get e "data" = Some (VList conv) /\
    options_path (_options st) "xaxis" "mode" = Some (VStr "time").
Proof.
  intros Ho Ht Hdup Hk.
  exists (entry_of (VList conv) label options kwargs).
  exists (mkFlot (_series self ++ [entry_of (VList conv) label options kwargs])
                 (VDict (dict_set o "xaxis" (VDict [("mode", VStr "time")])))).
  split.
  - apply add_series_ok; [reflexivity| |exact Hdup].
    rewrite Ho. apply detect_temporal. exact Ht.
  - cbn [_series _options]. split; [reflexivity|]. split.
    + now apply entry_of_data.
    + unfold options_path. now rewrite dict_get_set_same.
Qed.

(** C5: adding a time series (every [x] a calendar value that the
    platform converts) leaves the options with the key ['xaxis'] bound
    to the mapping [{mode: "time"}], which replaces what the key held
    before, and with every other top-level key as it was; this holds
    whether the call succeeds or raises for a duplicate label. *)
Theorem add_series_temporal_options self o item items conv label options kwargs :
  _options self = VDict o ->
  temporal mktime (item :: items) conv ->
  exists o',
    _options (fst (add_series mktime self (VList (item :: items)) label
                              options kwargs)) = VDict o' /\
    dict_get o' "xaxis" = Some (VDict [("mode", VStr "time")]) /\
    (forall k, k <> "xaxis" -> dict_get o' k = dict_get o k).
Proof.
  intros Ho Ht.
  exists (dict_set o "xaxis" (VDict [("mode", VStr "time")])).
  pose proof (detect_temporal o _ _ _ Ht) as Hd. rewrite <- Ho in Hd.
  split; [|split].
  - destruct (duplicate label (_series self)) eqn:Hdup.
    + rewrite (add_series_duplicate mktime self (VList (item :: items)) label
                 options kwargs _ _ eq_refl Hd Hdup). reflexivity.
    + rewrite (add_series_ok mktime self (VList (item :: items)) label
                 options kwargs _ _ eq_refl Hd Hdup). reflexivity.
  - apply dict_get_set_same.
  - intros k Hk. now apply dict_get_set_other.
Qed.

End TimeSeries.

(** Two points with calendar values on the sample platform. *)
Lemma temporal_sample :
  temporal utc_mktime
    [VTuple [VDate (mkdate 2011 3 13 None); VInt 4];
     VList [VDate (mkdate 1970 1 2 (Some (1, 0, 1))); VInt 5]]
    [VTuple [VInt 1299974400000; VInt 4]; VTuple [VInt 90001000; VInt 5]].
Proof.
  constructor; [|constructor; [|constructor]].
  - exists (mkdate 2011 3 13 None), (VInt 4), 1299974400000. repeat split.
  - exists (mkdate 1970 1 2 (Some (1, 0, 1))), (VInt 5), 90001000. repeat split.
Defined.

Lemma add_series_temporal_witness :
  let self := mkFlot [] (VDict [("grid", VDict [("show", VBool true)])]) in
  exists e st,
    add_series utc_mktime self
      (VList [VTuple [VDate (mkdate 2011 3 13 None); VInt 4];
              VList [VDate (mkdate 1970 1 2 (Some (1, 0, 1))); VInt 5]])
      (Some "visits") (VDict [("color", VStr "red")]) [("lines", VBool true)]
    = (st, Ok tt) /\
    _series st = _series self ++ [e] /\
    dict_get e "data"
    = Some (VList [VTuple [VInt 1299974400000; VInt 4];
                   VTuple [VInt 90001000; VInt 5]]) /\
    options_path (_options st) "xaxis" "mode" = Some (VStr "time").
Proof.
  intros self.
  apply (add_series_temporal utc_mktime self
           [("grid", VDict [("show", VBool true)])]).
  - reflexivity.
  - exact temporal_sample.
  - reflexivity.
  - simpl. intuition discriminate.
Defined.

(** A list whose first pair has a calendar value as its [x] and whose
    second pair has a number: the conversion asks the number for its
    [timetuple], the call raises [AttributeError], nothing is stored and
    the options stay as they were. *)
Lemma add_series_temporal_mixed :
  let self := mkFlot [] (VDict []) in
  add_series utc_mktime self
    (VList [VTuple [VDate (mkdate 2011 3 13 None); VInt 4]; VTuple [VInt 5; VInt 2]])
    None VNone []
  = (self, Raise AttributeError).
Proof. reflexivity. Qed.

(** A tuple of pairs is not inspected at all: its calendar values are
    stored as they are and the options stay as they were. *)
Lemma add_series_temporal_tuple :
  let self := mkFlot [] (VDict []) in
  let data := VTuple [VTuple [VDate (mkdate 2011 3 13 None); VInt 4]] in
  add_series utc_mktime self data None VNone []
  = (mkFlot [[("data", data)]] (VDict []), Ok tt).
Proof. reflexivity. Qed.

Lemma add_series_temporal_options_witness :
  let self := mkFlot [] (VDict [("xaxis", VDict [("min", VInt 0)]);
                                ("grid", VDict [("show", VBool true)])]) in
  exists o',
    _options (fst (add_series utc_mktime self
      (VList [VTuple [VDate (mkdate 2011 3 13 None); VInt 4];
              VList [VDate (mkdate 1970 1 2 (Some (1, 0, 1))); VInt 5]])
      None VNone [])) = VDict o' /\
    dict_get o' "xaxis" = Some (VDict [("mode", VStr "time")]) /\
    (forall k, k <> "xaxis" ->
       dict_get o' k = dict_get [("xaxis", VDict [("min", VInt 0)]);
                                 ("grid", VDict [("show", VBool true)])] k).
Proof.
  intros self.
  apply (add_series_temporal_options utc_mktime self
           [("xaxis", VDict [("min", VInt 0)]); ("grid", VDict [("show", VBool true)])]
           _ _ _ None VNone [] eq_refl temporal_sample).
Defined.

(** The key [xaxis.min] set before a time series is added is gone
    afterwards: the whole [xaxis] mapping is replaced. *)
Lemma add_series_temporal_drops_xaxis_keys :
  let self := mkFlot [] (VDict [("xaxis", VDict [("min", VInt 0)])]) in
  let st := fst (add_series utc_mktime self
                   (VList [VTuple [VDate (mkdate 2011 3 13 None); VInt 4]])
                   None VNone []) in
  options_path (_options self) "xaxis" "min" = Some (VInt 0) /\
  options_path (_options st) "xaxis" "min" = None /\
  _options st = VDict [("xaxis", VDict [("mode", VStr "time")])].
Proof. repeat split. Qed.

(** ** Serialization and the bar width *)

Lemma mapM_map {A B C : Type} (f : B -> res C) (g : A -> B) (l : list A) :
  mapM f (map g l) = mapM (fun a => f (g a)) l.
Proof.
  induction l as [|a l IH]; simpl; [reflexivity|]. now rewrite IH.
Qed.

Section Extremes.




End Extremes.

Section BarWidth.










(** For integers the first least item is the least integer, and the
    first greatest the greatest. *)
Lemma first_least_ints m zs : is_min m zs -> first_least (NInt m) (map NInt zs).
Proof.
  intros [Hin Hle]. induction zs as [|z zs IH]; [destruct Hin|].
  inversion Hle as [|? ? Hz Hle']; subst.
  destruct (Z.eq_dec z m) as [->|Hne].
  - exists [], (map NInt zs). split; [reflexivity|]. split; [constructor|].
    rewrite Forall_map. rewrite Forall_forall in Hle' |- *.
    intros x Hx. simpl. apply Z.ltb_ge. auto.
  - destruct Hin as [?|Hin]; [contradiction|].
    destruct (IH Hin Hle') as (pre & post & Heq & Hpre & Hpost).
    exists (NInt z :: pre), post. simpl. rewrite Heq. split; [reflexivity|].
    split; [|exact Hpost]. constructor; [|exact Hpre].
    simpl. apply Z.ltb_lt. lia.
Qed.

Lemma first_greatest_ints m zs : is_max m zs -> first_greatest (NInt m) (map NInt zs).
Proof.
  intros [Hin Hle]. induction zs as [|z zs IH]; [destruct Hin|].
  inversion Hle as [|? ? Hz Hle']; subst.
  destruct (Z.eq_dec z m) as [->|Hne].
  - exists [], (map NInt zs). split; [reflexivity|]. split; [constructor|].
    rewrite Forall_map. rewrite Forall_forall in Hle' |- *.
    intros x Hx. simpl. apply Z.ltb_ge. auto.
  - destruct Hin as [?|Hin]; [contradiction|].
    destruct (IH Hin Hle') as (pre & post & Heq & Hpre & Hpost).
    exists (NInt z :: pre), post. simpl. rewrite Heq. split; [reflexivity|].
    split; [|exact Hpost]. constructor; [|exact Hpre].
    simpl. apply Z.ltb_lt. lia.
Qed.


(** The width depends on the registry through the data of its entries
    only. *)
Lemma calculate_bar_width_data reg reg' opts opts' :
  map (fun s => dict_get s "data") reg = map (fun s => dict_get s "data") reg' ->
  calculate_bar_width (mkFlot reg opts) = calculate_bar_width (mkFlot reg' opts').
Proof.
  intros He. unfold calculate_bar_width. cbn [_series].
  assert (H1 : forall (f : option value -> res Z) r,
             mapM (fun s => f (dict_get s "data")) r
             = mapM f (map (fun s => dict_get s "data") r)).
  { intros f r. now rewrite mapM_map. }
  assert (H2 : forall (f : option value -> res value) r,
             mapM (fun s => f (dict_get s "data")) r
             = mapM f (map (fun s => dict_get s "data") r)).
  { intros f r. now rewrite mapM_map. }
  unfold getitem.
  rewrite (H1 (fun o => d <- match o with Some v => Ok v | None => Raise KeyError end ;;
                        len d) reg).
  rewrite (H1 (fun o => d <- match o with Some v => Ok v | None => Raise KeyError end ;;
                        len d) reg').
  rewrite (H2 (fun o => match o with Some v => Ok v | None => Raise KeyError end) reg).
  rewrite (H2 (fun o => match o with Some v => Ok v | None => Raise KeyError end) reg').
  now rewrite He.
Qed.




End BarWidth.

(** ** The write into the hint object *)

Section SharedHints.

Variable obj : places.

















End SharedHints.


(** The example evaluated: both entries get [barWidth = 10.0/3]. *)
Example series_two_bar_series :
  let p := fun x y => VList [VInt x; VInt y] in
  let self0 := mkFlot [] (VDict []) in
  let self1 := fst (add_series utc_mktime self0 (VList [p 0 1; p 5 2; p 10 3])
                               None VNone [("bars", VBool true)]) in
  let self2 := fst (add_series utc_mktime self1 (VList [p 0 1; p 10 2])
                               None VNone [("bars", VBool true)]) in
  option_map (map (fun s => entry_path s "bars" "barWidth"))
             (match snd (series self2) with Ok v => Some v | Raise _ => None end)
  = Some [Some (VFloat (10 / 3)); Some (VFloat (10 / 3))].
Proof. reflexivity. Qed.


(** ** Adding and reading back *)

Section RoundTrip.

Variable mktime : date -> option float.




End RoundTrip.


(** ** The option resolver *)


Section Resolver.

Lemma bind_ext {A B : Type} (m : res A) (f g : A -> res B) :
  (forall a, f a = g a) -> bind m f = bind m g.
Proof. intros H. destruct m; simpl; auto. Qed.

Lemma update_dict d items : update d (VDict items) = update_items d items.
Proof.
  revert d. induction items as [|[k v] items IH]; intros d; [reflexivity|].
  cbn [update update_items]. apply bind_ext. intros d'. exact (IH d').
Qed.

Lemma spec_merge_dict d u :
  spec_merge (Some (VDict d)) (VDict u) = VDict (merge_items d u).
Proof.
  reflexivity.
Qed.

Lemma wf_dict kvs :
  wf (VDict kvs) <-> NoDup (map fst kvs) /\ Forall (fun kv => wf (snd kv)) kvs.
Proof.
  simpl. apply and_iff_compat_l.
  induction kvs as [|[k x] kvs IH]; simpl.
  - split; auto.
  - rewrite IH. split.
    + intros [H1 H2]. now constructor.
    + intros H. inversion H; auto.
Qed.

Lemma compatible_dict d u :
  compatible (Some (VDict d)) (VDict u)
  <-> Forall (fun kv => compatible (dict_get d (fst kv)) (snd kv)) u.
Proof.
  simpl. induction u as [|[k x] u IH]; simpl.
  - split; auto.
  - rewrite IH. split.
    + intros [H1 H2]. now constructor.
    + intros H. inversion H; auto.
Qed.

Lemma dict_set_fresh (d : dict) k v :
  dict_get d k = None -> dict_set d k v = d ++ [(k, v)].
Proof.
  induction d as [|[k' v'] d IH]; simpl; [reflexivity|].
  destruct (String.eqb k k'); [discriminate|]. intros H. now rewrite IH.
Qed.

Lemma dict_get_app_fresh (d : dict) k v k' :
  k' <> k -> dict_get d k' = None -> dict_get (d ++ [(k, v)]) k' = None.
Proof.
  intros Hne. induction d as [|[k0 v0] d IH]; simpl.
  - destruct (String.eqb_spec k' k); congruence.
  - destruct (String.eqb k' k0); [discriminate|auto].
Qed.

Lemma update_items_fresh u :
  Forall (fun kv => update_agrees_at (snd kv)) u ->
  Forall (fun kv => wf (snd kv)) u ->
  NoDup (map fst u) ->
  forall d, (forall k, In k (map fst u) -> dict_get d k = None) ->
    update_items (VDict d) u = Ok (VDict (d ++ u)).
Proof.
  induction u as [|[k v] u IH]; intros HP Hwf Hnd d Hfresh.
  - simpl. now rewrite app_nil_r.
  - inversion HP as [|? ? HPv HP']; subst. inversion Hwf as [|? ? Hwv Hwf']; subst.
    inversion Hnd as [|? ? Hnotin Hnd']; subst. simpl in Hfresh.
    cbn [update_items snd] in *.
    assert (Hk : dict_get d k = None) by auto.
    assert (Hstep : (match v with
                     | VDict _ =>
                         sub <- get_default (VDict d) k (VDict []) ;;
                         r <- update sub v ;; setitem (VDict d) k r
                     | _ => setitem (VDict d) k v
                     end) = Ok (VDict (d ++ [(k, v)]))).
    { assert (Hc : compatible None v) by (destruct v; exact I).
      pose proof (fun H => HPv Hwv H None Hc) as Hu. cbv beta iota in Hu.
      destruct v; cbn [setitem get_default bind];
        rewrite ?Hk, ?dict_set_fresh by assumption; try reflexivity.
      rewrite (Hu eq_refl). cbn [bind spec_merge setitem].
      now rewrite dict_set_fresh. }
    rewrite Hstep. simpl. rewrite IH; auto.
    + now rewrite <- app_assoc.
    + intros k' Hin. apply dict_get_app_fresh; auto. intros ->. contradiction.
Qed.

Lemma update_items_merge u :
  Forall (fun kv => update_agrees_at (snd kv)) u ->
  Forall (fun kv => wf (snd kv)) u ->
  NoDup (map fst u) ->
  forall d, Forall (fun kv => compatible (dict_get d (fst kv)) (snd kv)) u ->
    update_items (VDict d) u = Ok (VDict (merge_items d u)).
Proof.
  induction u as [|[k v] u IH]; intros HP Hwf Hnd d Hc; [reflexivity|].
  inversion HP as [|? ? HPv HP']; subst. inversion Hwf as [|? ? Hwv Hwf']; subst.
  inversion Hnd as [|? ? Hnotin Hnd']; subst.
  inversion Hc as [|? ? Hcv Hc']; subst. cbn [update_items merge_items fst snd] in *.
  assert (Hstep : (match v with
                   | VDict _ =>
                       sub <- get_default (VDict d) k (VDict []) ;;
                       r <- update sub v ;; setitem (VDict d) k r
                   | _ => setitem (VDict d) k v
                   end) = Ok (VDict (dict_set d k (spec_merge (dict_get d k) v)))).
  { destruct v; try reflexivity.
    cbn [get_default bind]. rewrite (HPv Hwv eq_refl (dict_get d k) Hcv).
    reflexivity. }
  rewrite Hstep. cbn [bind]. apply IH; auto.
  rewrite Forall_forall in Hc' |- *. intros [k' v'] Hin. simpl.
  rewrite dict_get_set_other; [now apply (Hc' (k', v'))|].
  intros ->. apply Hnotin. now apply (in_map fst) in Hin.
Qed.

Lemma update_agrees v : update_agrees_at v.
Proof.
  induction v as [v Hv|u IH] using value_dict_ind.
  - intros _ Hm. congruence.
  - intros Hwf _ ex Hc. apply wf_dict in Hwf as [Hnd Hwf].
    rewrite update_dict.
    destruct ex as [[]|].
    all: try (simpl in Hc; contradiction).
    + rewrite spec_merge_dict. apply update_items_merge; auto.
      now apply compatible_dict.
    + rewrite update_items_fresh; auto.
Qed.

(** On a chain of compatible, well-formed mappings the options resolved
    at construction are those of the specification's fold. *)
Lemma init_options_agrees layers :
  forall acc, is_mapping acc = true -> chain_ok acc layers ->
    init_options acc (map Some layers)
    = Ok (fold_left (fun a src => spec_merge (Some a) src) layers acc).
Proof.
  induction layers as [|src layers IH]; intros acc Hacc Hok; [reflexivity|].
  destruct Hok as (Hm & Hwf & Hc & Hrest). simpl.
  rewrite (update_agrees src Hwf Hm (Some acc) Hc). simpl.
  apply IH; [|exact Hrest].
  destruct acc; try discriminate. destruct src; try discriminate. reflexivity.
Qed.

Lemma init_agrees layers :
  chain_ok (VDict []) layers ->
  __init__ (map Some layers) = Ok (mkFlot [] (spec_resolve layers)).
Proof.
  intros Hok. unfold __init__, spec_resolve.
  now rewrite init_options_agrees.
Qed.

End Resolver.

(** The merge example: a base layer and a derived layer. *)
Example init_merge_example :
  let base := VDict [("grid", VDict [("show", VBool true)])] in
  let derived := VDict [("grid", VDict [("hoverable", VBool true)]);
                        ("xaxis", VDict [("mode", VStr "time")])] in
  let merged := VDict [("grid", VDict [("show", VBool true); ("hoverable", VBool true)]);
                       ("xaxis", VDict [("mode", VStr "time")])] in
  __init__ [None; Some base; Some derived] = Ok (mkFlot [] merged) /\
  spec_resolve [base; derived] = merged.
Proof. split; reflexivity. Qed.

(** The chain of the example is one on which construction and the fold
    of the specification agree. *)
Example init_agrees_example :
  let base := VDict [("grid", VDict [("show", VBool true)])] in
  let derived := VDict [("grid", VDict [("hoverable", VBool true)]);
                        ("xaxis", VDict [("mode", VStr "time")])] in
  __init__ (map Some [base; derived]) = Ok (mkFlot [] (spec_resolve [base; derived])).
Proof.
  intros base derived. apply init_agrees. simpl.
  repeat split; try exact I; repeat constructor; simpl; intuition discriminate.
Qed.

(** C2: on the chain whose base layer binds ['grid'] to the number 5 and
    whose derived layer binds it to the empty mapping, construction
    keeps 5, where the fold of the specification has the empty mapping;
    when the derived layer binds it to [{show: true}], construction
    raises a [TypeError], where the fold has that mapping.  [update]
    recurses into the existing value whenever the incoming one is a
    mapping, also when the existing value is not a mapping. *)
Theorem init_scalar_then_mapping :
  let base := VDict [("grid", VInt 5)] in
  let empty := VDict [("grid", VDict [])] in
  let derived := VDict [("grid", VDict [("show", VBool true)])] in
  __init__ [Some base; Some empty] = Ok (mkFlot [] (VDict [("grid", VInt 5)])) /\
  spec_resolve [base; empty] = VDict [("grid", VDict [])] /\
  __init__ [Some base; Some derived] = Raise TypeError /\
  spec_resolve [base; derived] = derived.
Proof. repeat split. Qed.

(** * Further properties of the code *)

(** ** The add-series operation: what is stored, and what a failure leaves *)

Section AddSeriesMore.

Variable mktime : date -> option float.

Lemma detect_plain opts series :
  plain_data series ->
  (is_int series || truthy series) = true /\
  detect_time_series mktime opts series = Ok (series, opts).
Proof.
  destruct series; try (simpl; auto; fail).
  intros (p & ps & x & -> & Hp & Hx). split; [reflexivity|].
  unfold detect_time_series. cbn [getitem0 bind]. rewrite Hp. cbn [bind].
  destruct x; try reflexivity. discriminate.
Qed.

(** X4: data that is not a list, or a list whose first point does not start
    with a calendar value, is stored as it is given, whatever it holds
    further on (a tuple of dated points, a list with calendar values
    after the first point), and the options are left as they were. *)
Theorem add_series_plain_data self series label options kwargs :
  plain_data series ->
  duplicate label (_series self) = false ->
  keeps_data options ->
  exists e,
    add_series mktime self series label options kwargs
    = (mkFlot (_series self ++ [e]) (_options self), Ok tt) /\
    dict_get e "data" = Some series.
Proof.
  intros Hp Hdup Hk. destruct (detect_plain (_options self) _ Hp) as [H Hd].
  exists (entry_of series label options kwargs). split.
  - now apply add_series_ok.
  - now apply entry_of_data.
Qed.

(** X5: a call either appends exactly one entry after the stored ones or
    raises and leaves the registry as it was; when it raises anything but
    [DuplicateLabelException] the whole instance, options included, is
    as before. *)
Theorem add_series_append_only self series label options kwargs :
  match snd (add_series mktime self series label options kwargs) with
  | Ok _ =>
      exists e, _series (fst (add_series mktime self series label options kwargs))
                = _series self ++ [e]
  | Raise e =>
      _series (fst (add_series mktime self series label options kwargs))
      = _series self /\
      (e <> DuplicateLabelException ->
       fst (add_series mktime self series label options kwargs) = self)
  end.
Proof.
  destruct (is_int series || truthy series) eqn:H.
  2:{ rewrite add_series_missing by assumption. simpl. auto. }
  destruct (detect_time_series mktime (_options self) series)
    as [[data opts]|e] eqn:Hd.
  2:{ rewrite (add_series_detect_raises _ _ _ _ _ _ e) by assumption. simpl. auto. }
  destruct (duplicate label (_series self)) eqn:Hdup.
  - rewrite (add_series_duplicate _ _ _ _ _ _ data opts) by assumption. simpl.
    split; [reflexivity|congruence].
  - rewrite (add_series_ok _ _ _ _ _ _ data opts) by assumption. simpl. eauto.
Qed.

(** X6: when the first item of a list cannot be subscripted (a flat list of
    numbers, say) or is empty, the error of [series[0][0]] is raised and
    the instance is left as it was. *)
Theorem add_series_first_item_error self p ps label options kwargs e :
  getitem0 p = Raise e ->
  add_series mktime self (VList (p :: ps)) label options kwargs = (self, Raise e).
Proof.
  intros Hp. apply add_series_detect_raises; [reflexivity|].
  unfold detect_time_series. cbn [getitem0 bind]. now rewrite Hp.
Qed.

Lemma label_in_labels l reg : label_in l reg = true <-> In l (labels reg).
Proof.
  unfold label_in, labels. rewrite existsb_exists, in_flat_map. split.
  - intros (s & Hin & Hs). exists s. split; [exact Hin|].
    destruct (dict_get s "label") as [[]|]; try discriminate.
    apply String.eqb_eq in Hs. subst. now left.
  - intros (s & Hin & Hs). exists s. split; [exact Hin|].
    destruct (dict_get s "label") as [[]|]; try contradiction.
    destruct Hs as [->|[]]. apply String.eqb_refl.
Qed.

Lemma line_types_keep_label kwargs e0 :
  dict_get (fold_left (set_line_type kwargs) LINE_TYPES e0) "label"
  = dict_get e0 "label".
Proof.
  unfold LINE_TYPES. simpl. unfold set_line_type.
  repeat match goal with
         | |- context [match dict_get kwargs ?k with _ => _ end] =>
             destruct (dict_get kwargs k) as [[]|]
         end; simpl;
    rewrite ?dict_get_set_other by discriminate; reflexivity.
Qed.

Lemma entry_of_label data label options kwargs :
  keeps_label options ->
  dict_get (entry_of data label options kwargs) "label"
  = match label with
    | Some l => if truthy (VStr l) then Some (VStr l) else None
    | None => None
    end.
Proof.
  intros Hk. unfold entry_of.
  assert (H1 : forall e0 : dict,
             dict_get (match options with
                       | VDict o => dict_update
                                      (fold_left (set_line_type kwargs) LINE_TYPES e0) o
                       | _ => fold_left (set_line_type kwargs) LINE_TYPES e0
                       end) "label" = dict_get e0 "label").
  { intros e0. destruct options; try apply line_types_keep_label.
    simpl in Hk. rewrite dict_get_update_notin by assumption.
    apply line_types_keep_label. }
  rewrite H1. destruct label as [l|]; [destruct (truthy (VStr l))|]; reflexivity.
Qed.

Lemma labels_snoc reg e :
  labels (reg ++ [e])
  = labels reg ++ match dict_get e "label" with Some (VStr l) => [l] | _ => [] end.
Proof.
  unfold labels. rewrite flat_map_app. simpl. now rewrite app_nil_r.
Qed.

Lemma NoDup_snoc (l : list string) (a : string) :
  NoDup l -> ~ In a l -> NoDup (l ++ [a]).
Proof.
  induction 1 as [|x l Hx Hnd IH]; simpl; intros Ha.
  - constructor; [tauto|constructor].
  - constructor.
    + rewrite in_app_iff. simpl. intros [H|[H|[]]]; [tauto|]. subst. tauto.
    + apply IH. tauto.
Qed.

(** X7: the labels stay pairwise distinct: when the string labels of the
    stored entries are distinct and the extra options carry no ['label']
    key, they are distinct after any call, successful or not. *)
Theorem add_series_labels_distinct self series label options kwargs :
  NoDup (labels (_series self)) ->
  keeps_label options ->
  NoDup (labels (_series (fst (add_series mktime self series label options kwargs)))).
Proof.
  intros Hnd Hk.
  destruct (is_int series || truthy series) eqn:H.
  2:{ now rewrite add_series_missing. }
  destruct (detect_time_series mktime (_options self) series)
    as [[data opts]|e] eqn:Hd.
  2:{ now rewrite (add_series_detect_raises _ _ _ _ _ _ e). }
  destruct (duplicate label (_series self)) eqn:Hdup.
  - now rewrite (add_series_duplicate _ _ _ _ _ _ data opts).
  - rewrite (add_series_ok _ _ _ _ _ _ data opts) by assumption.
    cbn [fst _series]. rewrite labels_snoc, entry_of_label by assumption.
    destruct label as [l|]; [|now rewrite app_nil_r].
    unfold duplicate in Hdup. destruct (truthy (VStr l)); [|now rewrite app_nil_r].
    cbn [andb] in Hdup. apply NoDup_snoc; [exact Hnd|].
    rewrite <- label_in_labels. congruence.
Qed.

(** X8: the label check reads the [label] argument only: a label given
    through the extra options is stored unchecked, so the call succeeds
    also when the label is in use, and the registry then lists it once
    more. *)
Theorem add_series_label_through_options self series o l kwargs :
  data_accepted mktime self series ->
  NoDup (map fst o) ->
  In ("label", VStr l) o ->
  exists e st,
    add_series mktime self series None (VDict o) kwargs = (st, Ok tt) /\
    _series st = _series self ++ [e] /\
    dict_get e "label" = Some (VStr l) /\
    labels (_series st) = labels (_series self) ++ [l].
Proof.
  intros [H (data & opts & Hd)] Hnd Hin.
  exists (entry_of data None (VDict o) kwargs).
  exists (mkFlot (_series self ++ [entry_of data None (VDict o) kwargs]) opts).
  assert (He : dict_get (entry_of data None (VDict o) kwargs) "label" = Some (VStr l)).
  { unfold entry_of. now apply dict_get_update_in. }
  split; [now apply add_series_ok|]. split; [reflexivity|]. split; [exact He|].
  cbn [_series]. now rewrite labels_snoc, He.
Qed.

End AddSeriesMore.

Lemma add_series_plain_data_witness :
  let self := mkFlot [] (VDict [("grid", VDict [])]) in
  let data := VList [VTuple [VInt 1; VInt 2];
                     VTuple [VDate (mkdate 2011 3 13 None); VInt 4]] in
  exists e,
    add_series utc_mktime self data (Some "a") VNone [("bars", VBool true)]
    = (mkFlot (_series self ++ [e]) (_options self), Ok tt) /\
    dict_get e "data" = Some data.
Proof.
  intros self data.
  apply (add_series_plain_data utc_mktime self data (Some "a") VNone).
  - exists (VTuple [VInt 1; VInt 2]),
      [VTuple [VDate (mkdate 2011 3 13 None); VInt 4]], (VInt 1). auto.
  - reflexivity.
  - exact I.
Defined.

Lemma add_series_first_item_error_witness :
  let self := mkFlot [[("data", VInt 7)]] (VDict []) in
  add_series utc_mktime self (VList [VInt 1; VInt 2; VInt 3]) None VNone []
  = (self, Raise TypeError).
Proof.
  intros self.
  apply (add_series_first_item_error utc_mktime self (VInt 1) [VInt 2; VInt 3]).
  reflexivity.
Defined.

Lemma add_series_labels_distinct_witness :
  let self := mkFlot [[("data", VInt 7); ("label", VStr "a")]] (VDict []) in
  NoDup (labels (_series (fst (add_series utc_mktime self (VInt 3) (Some "b")
                                          (VDict [("color", VStr "red")]) [])))).
Proof.
  intros self.
  apply (add_series_labels_distinct utc_mktime self).
  - repeat constructor. simpl. tauto.
  - simpl. intuition discriminate.
Defined.

Lemma add_series_label_through_options_witness :
  let self := mkFlot [[("data", VInt 7); ("label", VStr "a")]] (VDict []) in
  exists e st,
    add_series utc_mktime self (VInt 3) None (VDict [("label", VStr "a")]) []
    = (st, Ok tt) /\
    _series st = _series self ++ [e] /\
    dict_get e "label" = Some (VStr "a") /\
    labels (_series st) = labels (_series self) ++ ["a"].
Proof.
  intros self.
  apply (add_series_label_through_options utc_mktime self (VInt 3)
           [("label", VStr "a")] "a" []).
  - split; [reflexivity|]. exists (VInt 3), (VDict []). reflexivity.
  - repeat constructor. simpl. tauto.
  - simpl. auto.
Defined.

(** ** Serialization: what it changes and what it leaves *)

Section SerializationMore.

Lemma prepare_series_with self s :
  prepare_series self s = prepare_with (calculate_bar_width self) s.
Proof. reflexivity. Qed.


Lemma same_but_bars_refl s : same_but_bars s s.
Proof. intros k _. reflexivity. Qed.

Lemma prepare_with_same_but_bars cw s s' :
  prepare_with cw s = Ok s' -> same_but_bars s s'.
Proof.
  unfold prepare_with. destruct (dict_mem s "bars").
  2:{ intros H; inversion H. apply same_but_bars_refl. }
  destruct cw as [w|e]; simpl; [|discriminate].
  destruct (negb (PrimFloat.eqb w 0)).
  2:{ intros H; inversion H. apply same_but_bars_refl. }
  destruct (getitem s "bars") as [b|]; simpl; [|discriminate].
  destruct (setitem b "barWidth" (VFloat w)) as [b'|]; simpl; [|discriminate].
  intros H; inversion H. intros k Hk. now apply dict_get_set_other.
Qed.



(** Whatever the outcome, serialization leaves behind the registry with
    some entries changed under ['bars'] only. *)
Lemma prepare_all_frame opts todo :
  forall done st r,
    prepare_all opts done todo = (st, r) ->
    exists todo', st = mkFlot (done ++ todo') opts /\
                  Forall2 same_but_bars todo todo'.
Proof.
  induction todo as [|s todo IH]; intros done st r; simpl.
  - intros H. inversion H. exists []. split; [now rewrite app_nil_r|constructor].
  - rewrite prepare_series_with.
    destruct (prepare_with _ s) as [s'|e] eqn:Hp.
    + destruct (prepare_all opts (done ++ [s']) todo) as [st1 r1] eqn:Hr.
      intros H. inversion H; subst. clear H.
      destruct (IH _ _ _ Hr) as (todo' & -> & Hf).
      exists (s' :: todo'). split; [now rewrite <- app_assoc|].
      constructor; [|exact Hf]. eapply prepare_with_same_but_bars. exact Hp.
    + intros H. inversion H. exists (s :: todo). split; [reflexivity|].
      clear. induction (s :: todo); constructor; auto using same_but_bars_refl.
Qed.

(** A view that is returned holds, entry by entry, what [prepare_with]
    makes of the stored entries for the one width of the registry. *)
Lemma prepare_all_view opts todo :
  forall done st view,
    prepare_all opts done todo = (st, Ok view) ->
    st = mkFlot (done ++ view) opts /\
    Forall2 (fun s s' =>
               prepare_with (calculate_bar_width (mkFlot (done ++ todo) opts)) s
               = Ok s') todo view.
Proof.
  induction todo as [|s todo IH]; intros done st view; simpl.
  - intros H. inversion H. split; [now rewrite app_nil_r|constructor].
  - rewrite prepare_series_with.
    destruct (prepare_with _ s) as [s'|e] eqn:Hp; [|discriminate].
    destruct (prepare_all opts (done ++ [s']) todo) as [st1 r1] eqn:Hr.
    destruct r1 as [bs|e]; cbn [bind]; [|discriminate].
    intros H. inversion H; subst. clear H.
    destruct (IH _ _ _ Hr) as (-> & Hf).
    split; [now rewrite <- app_assoc|].
    constructor; [exact Hp|].
    assert (Hcw : calculate_bar_width (mkFlot ((done ++ [s']) ++ todo) opts)
                  = calculate_bar_width (mkFlot (done ++ s :: todo) opts)).
    { apply calculate_bar_width_data. rewrite <- app_assoc. simpl.
      rewrite !map_app. simpl.
      now rewrite (prepare_with_same_but_bars _ _ _ Hp "data") by discriminate. }
    now rewrite Hcw in Hf.
Qed.



(** X12: the width is a function of the data alone: two instances whose
    registries hold the same data in the same order compute the same
    width, or raise the same error, whatever their labels, hints and
    options. *)
Theorem bar_width_depends_on_data self self' :
  map (fun s => dict_get s "data") (_series self)
  = map (fun s => dict_get s "data") (_series self') ->
  calculate_bar_width self = calculate_bar_width self'.
Proof.
  destruct self as [reg opts], self' as [reg' opts']. apply calculate_bar_width_data.
Qed.

Lemma len_unsized v : unsized v = true -> len v = Raise TypeError.
Proof. destruct v; simpl; try discriminate; reflexivity. Qed.

Lemma len_error v e : len v = Raise e -> e = TypeError.
Proof. destruct v; simpl; intros H; inversion H; reflexivity. Qed.

Lemma lens_unsized reg :
  Forall (fun s => dict_mem s "data" = true) reg ->
  Exists (fun s => exists v, dict_get s "data" = Some v /\ unsized v = true) reg ->
  mapM (fun s => d <- getitem s "data" ;; len d) reg = Raise TypeError.
Proof.
  induction 1 as [|s reg Hs Hreg IH]; intros Hex; [inversion Hex|].
  simpl. unfold getitem at 1. unfold dict_mem in Hs.
  destruct (dict_get s "data") as [v|] eqn:Hv; [|discriminate]. cbn [bind].
  destruct (len v) as [n|e] eqn:Hl.
  - cbn [bind]. rewrite IH; [reflexivity|].
    inversion Hex as [? ? (v' & Hv' & Hu)|]; subst; [|assumption].
    rewrite Hv in Hv'. inversion Hv'; subst.
    rewrite (len_unsized _ Hu) in Hl. discriminate.
  - cbn [bind]. now rewrite (len_error _ _ Hl).
Qed.

Lemma prepare_all_no_width opts todo :
  forall done,
    calculate_bar_width (mkFlot (done ++ todo) opts) = Raise TypeError ->
    Exists (fun s => dict_mem s "bars" = true) todo ->
    prepare_all opts done todo = (mkFlot (done ++ todo) opts, Raise TypeError).
Proof.
  induction todo as [|s todo IH]; intros done Hcw Hex; [inversion Hex|].
  cbn [prepare_all]. unfold prepare_series.
  destruct (dict_mem s "bars") eqn:Hm.
  - now rewrite Hcw.
  - rewrite (IH (done ++ [s])).
    + cbn [bind]. now rewrite <- app_assoc.
    + now rewrite <- app_assoc.
    + inversion Hex; subst; [congruence|assumption].
Qed.

(** X13: a registry that mixes a scalar series (a single value, as for a pie
    chart) with a series that has a ['bars'] hint cannot be serialized:
    the width computation takes the length of every entry's data, and
    reading the view raises [TypeError], leaving the instance as it
    was. *)
Theorem series_scalar_with_bars st :
  Forall (fun s => dict_mem s "data" = true) (_series st) ->
  Exists (fun s => exists v, dict_get s "data" = Some v /\ unsized v = true)
         (_series st) ->
  Exists (fun s => dict_mem s "bars" = true) (_series st) ->
  series st = (st, Raise TypeError).
Proof.
  intros Hd Hu Hb. destruct st as [reg opts]. unfold series. cbn [_series _options] in *.
  apply (prepare_all_no_width opts reg []); [|exact Hb].
  unfold calculate_bar_width. cbn [app _series].
  now rewrite lens_unsized.
Qed.

End SerializationMore.


Lemma bar_width_depends_on_data_witness :
  let d := VList [VList [VInt 0; VInt 1]; VList [VInt 4; VInt 2]] in
  calculate_bar_width (mkFlot [[("data", d)]] (VDict []))
  = calculate_bar_width
      (mkFlot [[("data", d); ("label", VStr "a"); ("bars", VDict [])]]
              (VDict [("grid", VDict [])])).
Proof.
  intros d.
  apply (bar_width_depends_on_data (mkFlot [[("data", d)]] (VDict []))).
  reflexivity.
Defined.

Lemma series_scalar_with_bars_witness :
  let st := mkFlot [[("data", VList [VList [VInt 0; VInt 1]]);
                     ("bars", VDict [("show", VBool true)])];
                    [("data", VInt 42)]] (VDict []) in
  series st = (st, Raise TypeError).
Proof.
  intros st. apply (series_scalar_with_bars st).
  - repeat constructor.
  - apply Exists_cons_tl. apply Exists_cons_hd. exists (VInt 42). auto.
  - apply Exists_cons_hd. reflexivity.
Defined.

(** ** [update] and the options resolved at construction *)

Section UpdateMore.

Lemma update_items_step d k v rest :
  update_items d ((k, v) :: rest)
  = (d' <- update_step d k v ;; update_items d' rest).
Proof. reflexivity. Qed.

Lemma update_step_inv d k v d2 :
  update_step (VDict d) k v = Ok d2 ->
  exists r, d2 = VDict (dict_set d k r) /\
            (if is_mapping v then update (existing_or_empty d k) v = Ok r
             else r = v).
Proof.
  unfold update_step, existing_or_empty.
  destruct v; cbn [setitem get_default bind is_mapping];
    try (intros H; inversion H; eauto; fail).
  destruct (update _ (VDict kvs)) as [r|e]; cbn [bind]; [|discriminate].
  intros H. inversion H. eauto.
Qed.

Lemma update_items_inv u :
  NoDup (map fst u) ->
  forall d r, update_items (VDict d) u = Ok r ->
    exists d', r = VDict d' /\
      (forall k, ~ In k (map fst u) -> dict_get d' k = dict_get d k) /\
      (forall k v, In (k, v) u ->
         exists rv, dict_get d' k = Some rv /\
           (if is_mapping v then update (existing_or_empty d k) v = Ok rv
            else rv = v)).
Proof.
  induction u as [|[k v] u IH]; intros Hnd d r.
  - simpl. intros H. inversion H. exists d. repeat split; auto. intros k v [].
  - inversion Hnd as [|? ? Hnotin Hnd']; subst.
    rewrite update_items_step.
    destruct (update_step (VDict d) k v) as [d2|e] eqn:Hs; cbn [bind]; [|discriminate].
    apply update_step_inv in Hs as (rk & -> & Hrk).
    intros Hr. destruct (IH Hnd' _ _ Hr) as (d' & -> & Hout & Hin).
    exists d'. split; [reflexivity|]. split.
    + intros k' Hk'. simpl in Hk'. rewrite Hout by tauto.
      apply dict_get_set_other. intros ->. tauto.
    + intros k' v' [Heq|Hin'].
      * inversion Heq; subst. exists rk. split; [|exact Hrk].
        rewrite Hout by assumption. apply dict_get_set_same.
      * destruct (Hin _ _ Hin') as (rv & Hget & Hrv). exists rv. split; [exact Hget|].
        assert (Hne : k' <> k).
        { intros ->. apply Hnotin. now apply (in_map fst) in Hin'. }
        unfold existing_or_empty in *.
        now rewrite dict_get_set_other in Hrv by assumption.
Qed.

(** X3: what a successful [update] of a dict leaves: the keys that the
    incoming mapping does not have keep their values (none is removed),
    a key with an incoming value that is not a mapping is bound to that
    value, and a key with an incoming mapping is bound to the update of
    the value it had, or of the empty dict, by that mapping. *)
Theorem update_lookup d u r :
  NoDup (map fst u) ->
  update (VDict d) (VDict u) = Ok r ->
  exists d', r = VDict d' /\
    (forall k, ~ In k (map fst u) -> dict_get d' k = dict_get d k) /\
    (forall k v, In (k, v) u -> is_mapping v = false -> dict_get d' k = Some v) /\
    (forall k v, In (k, v) u -> is_mapping v = true ->
       exists rv, update (existing_or_empty d k) v = Ok rv /\
                  dict_get d' k = Some rv).
Proof.
  intros Hnd Hu. rewrite update_dict in Hu.
  destruct (update_items_inv u Hnd _ _ Hu) as (d' & -> & Hout & Hin).
  exists d'. split; [reflexivity|]. split; [exact Hout|]. split.
  - intros k v Hkv Hm. destruct (Hin _ _ Hkv) as (rv & Hget & Hrv).
    rewrite Hm in Hrv. now subst.
  - intros k v Hkv Hm. destruct (Hin _ _ Hkv) as (rv & Hget & Hrv).
    rewrite Hm in Hrv. eauto.
Qed.

Lemma dict_set_same_value (d : dict) k v :
  dict_get d k = Some v -> dict_set d k v = d.
Proof.
  induction d as [|[k0 v0] d IH]; simpl; [discriminate|].
  destruct (String.eqb_spec k k0) as [->|].
  - intros H. inversion H. reflexivity.
  - intros H. now rewrite IH.
Qed.

Lemma update_items_stable u d :
  (forall k v, In (k, v) u -> update_step (VDict d) k v = Ok (VDict d)) ->
  update_items (VDict d) u = Ok (VDict d).
Proof.
  induction u as [|[k v] u IH]; intros H; [reflexivity|].
  rewrite update_items_step, (H k v) by (now left). cbn [bind].
  apply IH. intros k' v' Hin. apply H. now right.
Qed.

Lemma update_idempotent v : update_idempotent_at v.
Proof.
  induction v as [v Hv|u IH] using value_dict_ind.
  - intros _ d d' H. destruct v; simpl in H; try discriminate.
  - intros Hwf d d' Hu. apply wf_dict in Hwf as [Hnd Hwf].
    rewrite update_dict in *.
    destruct u as [|[k0 v0] u0] eqn:Eu; [simpl in *; congruence|]. rewrite <- Eu in *.
    assert (Hd : exists dd, d = VDict dd).
    { destruct d; eauto; rewrite Eu, update_items_step in Hu;
        destruct v0; discriminate. }
    destruct Hd as [dd ->].
    destruct (update_items_inv u Hnd _ _ Hu) as (d1 & -> & _ & Hin).
    apply update_items_stable. intros k v Hkv.
    destruct (Hin _ _ Hkv) as (rv & Hget & Hrv).
    rewrite Forall_forall in IH, Hwf.
    specialize (IH _ Hkv). specialize (Hwf _ Hkv). simpl in IH, Hwf.
    unfold update_step.
    destruct v; cbn [is_mapping] in Hrv; subst;
      cbn [setitem]; rewrite ?dict_set_same_value by assumption; try reflexivity.
    cbn [get_default bind]. rewrite Hget.
    rewrite (IH Hwf _ _ Hrv). cbn [bind setitem].
    now rewrite dict_set_same_value.
Qed.

Lemma init_options_app pre rest :
  forall acc,
    init_options acc (pre ++ rest)
    = (a <- init_options acc pre ;; init_options a rest).
Proof.
  induction pre as [|[o|] pre IH]; intros acc; simpl; auto.
  destruct (update acc o); simpl; auto.
Qed.

(** X2: a class that inherits its [options] attribute from its parent
    contributes the parent's layer a second time, right after the first:
    the options resolved are the same as with the layer taken once. *)
Theorem init_inherited_layer pre u rest :
  wf u ->
  __init__ (pre ++ Some u :: Some u :: rest) = __init__ (pre ++ Some u :: rest).
Proof.
  intros Hwf. unfold __init__. rewrite !init_options_app.
  destruct (init_options (VDict []) pre) as [a|e]; cbn [bind]; [|reflexivity].
  cbn [init_options].
  destruct (update a u) as [a1|e] eqn:Hu; cbn [bind]; [|reflexivity].
  now rewrite (update_idempotent u Hwf _ _ Hu).
Qed.

Lemma init_options_present bases :
  forall acc, init_options acc bases = init_options acc (map Some (present bases)).
Proof.
  induction bases as [|[o|] bases IH]; intros acc; simpl; auto.
  destruct (update acc o); simpl; auto.
Qed.

(** X1: construction refines the deep merge: bases without an [options]
    attribute are skipped, and when the attributes found form a chain of
    well-formed mappings in which no incoming mapping meets an existing
    value that is not a mapping, the options resolved are the fold of
    the deep merge over them, starting from the empty mapping, and the
    registry is empty. *)
Theorem init_refines_deep_merge bases :
  chain_ok (VDict []) (present bases) ->
  __init__ bases = Ok (mkFlot [] (spec_resolve (present bases))).
Proof.
  intros Hok. rewrite <- (init_agrees _ Hok).
  unfold __init__. now rewrite init_options_present.
Qed.

End UpdateMore.

Lemma update_lookup_witness :
  let d := [("grid", VDict [("show", VBool true)]); ("legend", VBool false)] in
  let u := [("grid", VDict [("hoverable", VBool true)]); ("colors", VList [])] in
  exists d',
    VDict [("grid", VDict [("show", VBool true); ("hoverable", VBool true)]);
           ("legend", VBool false); ("colors", VList [])] = VDict d' /\
    (forall k, ~ In k (map fst u) -> dict_get d' k = dict_get d k) /\
    (forall k v, In (k, v) u -> is_mapping v = false -> dict_get d' k = Some v) /\
    (forall k v, In (k, v) u -> is_mapping v = true ->
       exists rv, update (existing_or_empty d k) v = Ok rv /\
                  dict_get d' k = Some rv).
Proof.
  intros d u. apply (update_lookup d u).
  - repeat constructor; simpl; intuition discriminate.
  - reflexivity.
Defined.

Lemma init_inherited_layer_witness :
  let u := VDict [("grid", VDict [("show", VBool true)])] in
  __init__ ([None; None] ++ Some u :: Some u :: [Some (VDict [("legend", VBool false)])])
  = __init__ ([None; None] ++ Some u :: [Some (VDict [("legend", VBool false)])]).
Proof.
  intros u. apply (init_inherited_layer [None; None] u).
  simpl. repeat split; try exact I; repeat constructor; simpl; intuition discriminate.
Defined.

Lemma init_refines_deep_merge_witness :
  let base := VDict [("grid", VDict [("show", VBool true)])] in
  let derived := VDict [("grid", VDict [("hoverable", VBool true)]);
                        ("xaxis", VDict [("mode", VStr "time")])] in
  __init__ [None; None; Some base; Some derived]
  = Ok (mkFlot [] (spec_resolve (present [None; None; Some base; Some derived]))).
Proof.
  intros base derived. apply (init_refines_deep_merge [None; None; Some base; Some derived]).
  simpl. repeat split; try exact I; repeat constructor; simpl; intuition discriminate.
Defined.

(** ** The shortcut methods *)

Section Shortcuts.

Variable mktime : date -> option float.

Lemma substring_all (s : string) : substring 0 (String.length s) s = s.
Proof. induction s as [|c s IH]; simpl; [reflexivity|]. now rewrite IH. Qed.

Lemma drop4_add (s : string) : drop4 ("add_" ++ s) = s.
Proof. unfold drop4. simpl. rewrite Nat.sub_0_r. apply substring_all. Qed.

Lemma prefix_add (name : string) :
  String.prefix "add_" name = true -> exists s, name = ("add_" ++ s)%string.
Proof.
  intros H.
  destruct name as [|a [|b [|c [|d s]]]]; simpl in H;
    repeat match type of H with
           | (if ?x then _ else _) = true => destruct x; [subst|discriminate]
           end; try discriminate.
  exists s. reflexivity.
Qed.

Lemma split_add (s : string) :
  split_on "_"%char ("add_" ++ s) = "add" :: split_on "_"%char s.
Proof. reflexivity. Qed.

Lemma split_on_nonempty sep s : split_on sep s <> [].
Proof.
  destruct s as [|c s]; simpl; [discriminate|].
  destruct (Ascii.eqb c sep); [discriminate|].
  destruct (split_on sep s); discriminate.
Qed.

Lemma in_line_types t : existsb (String.eqb t) LINE_TYPES = true <-> In t LINE_TYPES.
Proof.
  rewrite existsb_exists. split.
  - intros (x & Hin & Heq). apply String.eqb_eq in Heq. now subst.
  - intros Hin. exists t. split; [exact Hin|apply String.eqb_refl].
Qed.

Lemma getattr_add (s : string) :
  __getattr__ ("add_" ++ s)
  = if existsb (String.eqb (first_segment s)) LINE_TYPES then Ok s
    else Raise AttributeError.
Proof.
  assert (Hp : String.prefix "add_" ("add_" ++ s) = true)
    by (apply prefix_correct; simpl; destruct s; reflexivity).
  unfold __getattr__, first_segment. rewrite Hp, split_add, drop4_add.
  pose proof (split_on_nonempty "_"%char s) as Hne.
  destruct (split_on "_"%char s) as [|x l]; [contradiction|]. reflexivity.
Qed.

(** The text before the first underscore: the whole string when it has
    no underscore, otherwise the string is that text, an underscore and
    a rest. *)
Lemma first_segment_inv (s : string) :
  s = first_segment s \/
  exists rest, s = (first_segment s ++ "_" ++ rest)%string.
Proof.
  unfold first_segment. induction s as [|c s IH]; simpl; [now left|].
  destruct (Ascii.eqb_spec c "_"%char) as [->|Hc]; simpl.
  - right. exists s. reflexivity.
  - pose proof (split_on_nonempty "_"%char s) as Hne.
    destruct (split_on "_"%char s) as [|x l]; [contradiction|]. simpl in *.
    destruct IH as [IH|[rest IH]].
    + left. now rewrite <- IH.
    + right. exists rest. now rewrite IH at 1.
Qed.

Lemma first_segment_line_type t rest :
  In t LINE_TYPES ->
  first_segment t = t /\ first_segment (t ++ "_" ++ rest) = t.
Proof.
  unfold LINE_TYPES. simpl. intros [<-|[<-|[<-|[]]]]; split; reflexivity.
Qed.

(** X15: the attribute lookup answers exactly the names [add_<t>] and
    [add_<t>_<anything>] for a line type [t], and hands over what
    follows [add_] as the line type; for every other name it raises
    (never with an [IndexError]). *)
Theorem getattr_names name lt :
  __getattr__ name = Ok lt <->
  name = ("add_" ++ lt)%string /\
  exists t, In t LINE_TYPES /\
            (lt = t \/ exists rest, lt = (t ++ "_" ++ rest)%string).
Proof.
  split.
  - intros H.
    assert (Hp : String.prefix "add_" name = true).
    { unfold __getattr__ in H. destruct (String.prefix "add_" name); [reflexivity|discriminate]. }
    apply prefix_add in Hp as [s ->]. rewrite getattr_add in H.
    destruct (existsb (String.eqb (first_segment s)) LINE_TYPES) eqn:He; [|discriminate].
    inversion H; subst. split; [reflexivity|].
    exists (first_segment lt). split; [now apply in_line_types|].
    apply first_segment_inv.
  - intros (-> & t & Ht & Hlt). rewrite getattr_add.
    destruct (first_segment_line_type t "" Ht) as [H1 _].
    assert (Hseg : first_segment lt = t).
    { destruct Hlt as [->|[rest ->]]; [exact H1|].
      now destruct (first_segment_line_type t rest Ht). }
    rewrite Hseg. apply in_line_types in Ht. now rewrite Ht.
Qed.

Lemma set_line_type_unknown k v e lt :
  lt <> k -> set_line_type [(k, v)] e lt = e.
Proof.
  intros Hne. unfold set_line_type. cbn [dict_get].
  destruct (String.eqb_spec lt k); [contradiction|reflexivity].
Qed.

Lemma entry_of_unknown_hint data label options k v :
  ~ In k LINE_TYPES ->
  entry_of data label options [(k, v)] = entry_of data label options [].
Proof.
  intros Hk. unfold entry_of.
  assert (H : forall e0, fold_left (set_line_type [(k, v)]) LINE_TYPES e0
                         = fold_left (set_line_type []) LINE_TYPES e0).
  { intros e0. unfold LINE_TYPES in *. cbn [fold_left].
    rewrite !set_line_type_unknown by (intros <-; apply Hk; simpl; auto).
    reflexivity. }
  now rewrite H.
Qed.

(** X16: a shortcut name with a suffix, [add_<t>_<rest>], is answered
    like [add_<t>] but sets no render hint at all: called with keyword
    arguments that do not name a parameter bound already, it is the
    add-series operation with the data and the label and nothing
    else. *)
Theorem shortcut_suffix_sets_no_hint self t rest series label kwargs :
  In t LINE_TYPES ->
  clashes kwargs = false ->
  call_shortcut mktime self ("add_" ++ t ++ "_" ++ rest)%string series label kwargs
  = add_series mktime self series label VNone [].
Proof.
  intros Ht Hc. unfold call_shortcut. rewrite getattr_add.
  destruct (first_segment_line_type t rest Ht) as [_ ->].
  pose proof Ht as Ht'. apply in_line_types in Ht'. rewrite Ht', Hc.
  assert (Hty : add_series_type mktime self (t ++ "_" ++ rest) series label kwargs
                = add_series mktime self series label VNone
                             [((t ++ "_" ++ rest)%string, VBool true)]).
  { unfold LINE_TYPES in Ht. simpl in Ht.
    destruct Ht as [<-|[<-|[<-|[]]]]; reflexivity. }
  rewrite Hty. apply add_series_kwargs_ext. intros data.
  apply entry_of_unknown_hint.
  unfold LINE_TYPES in *. simpl in *.
  destruct Ht as [<-|[<-|[<-|[]]]]; simpl; intuition discriminate.
Qed.

End Shortcuts.

Lemma getattr_names_witness :
  __getattr__ "add_points_large" = Ok "points_large".
Proof.
  apply (proj2 (getattr_names "add_points_large" "points_large")).
  split; [reflexivity|]. exists "points". split; [simpl; auto|].
  right. exists "large". reflexivity.
Defined.

Lemma shortcut_suffix_sets_no_hint_witness :
  let self := mkFlot [] (VDict []) in
  call_shortcut utc_mktime self "add_bars_stacked" (VList [VTuple [VInt 1; VInt 2]])
                (Some "a") []
  = add_series utc_mktime self (VList [VTuple [VInt 1; VInt 2]]) (Some "a") VNone [].
Proof.
  intros self.
  apply (shortcut_suffix_sets_no_hint utc_mktime self "bars" "stacked").
  - simpl. auto.
  - reflexivity.
Defined.

(** ** Invariants of the registry and edge cases of the width *)

Section RegistryInvariant.

Variable mktime : date -> option float.

Lemma dict_mem_set (d : dict) k k' v :
  dict_mem d k = true -> dict_mem (dict_set d k' v) k = true.
Proof.
  unfold dict_mem. intros H. destruct (String.eqb_spec k k') as [->|Hne].
  - now rewrite dict_get_set_same.
  - now rewrite dict_get_set_other.
Qed.

Lemma dict_mem_update (u d : dict) k :
  dict_mem d k = true -> dict_mem (dict_update d u) k = true.
Proof.
  unfold dict_update. revert d.
  induction u as [|[k0 v0] u IH]; simpl; intros d H; [exact H|].
  apply IH. now apply dict_mem_set.
Qed.

Lemma set_line_type_mem kwargs e lt k :
  dict_mem e k = true -> dict_mem (set_line_type kwargs e lt) k = true.
Proof.
  intros H. unfold set_line_type.
  destruct (dict_get kwargs lt) as [v|]; [|exact H].
  destruct (is_mapping v); now apply dict_mem_set.
Qed.

Lemma entry_of_has_data data label options kwargs :
  dict_mem (entry_of data label options kwargs) "data" = true.
Proof.
  unfold entry_of.
  set (e0 := match label with
             | Some l => if truthy (VStr l) then [("data", data); ("label", VStr l)]
                         else [("data", data)]
             | None => [("data", data)]
             end).
  assert (H0 : dict_mem e0 "data" = true).
  { subst e0. destruct label as [l|]; [destruct (truthy (VStr l))|]; reflexivity. }
  assert (H1 : dict_mem (fold_left (set_line_type kwargs) LINE_TYPES e0) "data" = true).
  { unfold LINE_TYPES. cbn [fold_left]. now repeat apply set_line_type_mem. }
  destruct options; try exact H1. now apply dict_mem_update.
Qed.

(** X9: every stored entry has a ['data'] key, and stays so: the add-series
    operation, whatever its arguments and outcome, and serialization,
    whether it returns or raises, keep the invariant.  (The extra
    options can replace the data of the new entry, not remove it.) *)
Theorem registry_entries_have_data self data label options kwargs :
  Forall (fun s => dict_mem s "data" = true) (_series self) ->
  Forall (fun s => dict_mem s "data" = true)
         (_series (fst (add_series mktime self data label options kwargs))) /\
  Forall (fun s => dict_mem s "data" = true) (_series (fst (series self))).
Proof.
  intros Hinv. split.
  - destruct (is_int data || truthy data) eqn:H.
    2:{ now rewrite add_series_missing. }
    destruct (detect_time_series mktime (_options self) data)
      as [[data' opts]|e] eqn:Hd.
    2:{ now rewrite (add_series_detect_raises _ _ _ _ _ _ e). }
    destruct (duplicate label (_series self)) eqn:Hdup.
    + now rewrite (add_series_duplicate _ _ _ _ _ _ data' opts).
    + rewrite (add_series_ok _ _ _ _ _ _ data' opts) by assumption.
      cbn [fst _series]. apply Forall_app. split; [exact Hinv|].
      constructor; [apply entry_of_has_data|constructor].
  - unfold series.
    destruct (prepare_all (_options self) [] (_series self)) as [st r] eqn:Hp.
    apply prepare_all_frame in Hp as (todo' & -> & Hf). cbn [fst _series app].
    clear -Hinv Hf. induction Hf as [|s s' l l' Hs _ IH]; [constructor|].
    inversion Hinv; subst. constructor; [|now apply IH].
    unfold dict_mem in *. now rewrite (Hs "data") by discriminate.
Qed.

Lemma empty_points_lens reg :
  Forall (fun s => has_points s []) reg ->
  mapM (fun s => d <- getitem s "data" ;; len d) reg = Ok (map (fun _ => 0) reg) /\
  exists datas,
    mapM (fun s => getitem s "data") reg = Ok datas /\
    exists pairs, mapM iter datas = Ok pairs /\ List.concat pairs = [].
Proof.
  induction 1 as [|s reg Hs _ (IH1 & datas & IH2 & pairs & IH3 & IH4)]; simpl.
  - split; [reflexivity|]. exists []. split; [reflexivity|]. exists []. auto.
  - unfold getitem at 1 3. rewrite IH1, IH2.
    destruct Hs as [-> | ->]; simpl; (split; [reflexivity|]).
    + exists (VList [] :: datas). split; [reflexivity|]. simpl. rewrite IH3.
      exists ([] :: pairs). auto.
    + exists (VTuple [] :: datas). split; [reflexivity|]. simpl. rewrite IH3.
      exists ([] :: pairs). auto.
Qed.

(** X14: with no point to look at, the width computation raises
    [ValueError] and never reaches a division by zero: this is so on the
    empty registry ([max] of no length) and on a registry whose entries
    all hold an empty sequence ([min] of no x-value). *)
Theorem bar_width_without_points self :
  Forall (fun s => has_points s []) (_series self) ->
  calculate_bar_width self = Raise ValueError.
Proof.
  destruct self as [reg opts]. cbn [_series]. intros H.
  unfold calculate_bar_width. cbn [_series].
  destruct (empty_points_lens _ H) as (Hl & datas & Hd & pairs & Hp & Hc).
  rewrite Hl. cbn [bind].
  destruct reg as [|s reg]; [reflexivity|].
  cbn [map max_int bind]. rewrite Hd. cbn [bind]. rewrite Hp. cbn [bind].
  rewrite Hc. reflexivity.
Qed.

End RegistryInvariant.

Lemma registry_entries_have_data_witness :
  let self := mkFlot [[("data", VInt 7)]; [("data", VList []); ("bars", VDict [])]]
                     (VDict []) in
  Forall (fun s => dict_mem s "data" = true)
         (_series (fst (add_series utc_mktime self (VInt 3) None
                                   (VDict [("data", VNone)]) []))) /\
  Forall (fun s => dict_mem s "data" = true) (_series (fst (series self))).
Proof.
  intros self. apply (registry_entries_have_data utc_mktime self).
  repeat constructor.
Defined.

Lemma bar_width_without_points_witness :
  calculate_bar_width
    (mkFlot [[("data", VList []); ("bars", VDict [])]; [("data", VTuple [])]] (VDict []))
  = Raise ValueError.
Proof.
  apply (bar_width_without_points
           (mkFlot [[("data", VList []); ("bars", VDict [])]; [("data", VTuple [])]]
                   (VDict []))).
  constructor; [left; reflexivity|].
  constructor; [right; reflexivity|constructor].
Defined.

(** ** Serialization when hint objects are held at several places *)

Section SharedWrites.

Variable obj : places.


End SharedWrites.

Section UnsharedHints.

Lemma holds_hint_alone i j k :
  holds_hint (fun _ _ => None) i j k = Nat.eqb j i && String.eqb k "bars".
Proof. unfold holds_hint. simpl. now rewrite orb_false_r. Qed.

Lemma write_entry_other i b' j (e : dict) :
  j <> i -> write_entry (fun _ _ => None) i b' j e = e.
Proof.
  intros Hne. unfold write_entry. rewrite <- (map_id e) at 2.
  apply map_ext. intros kv. rewrite holds_hint_alone.
  destruct (Nat.eqb_spec j i); [contradiction|reflexivity].
Qed.

Lemma write_entry_self i b' (e : dict) :
  NoDup (map fst e) -> dict_mem e "bars" = true ->
  write_entry (fun _ _ => None) i b' i e = dict_set e "bars" b'.
Proof.
  unfold write_entry, dict_mem. intros Hnd Hm.
  induction e as [|[k v] e IH]; [discriminate|].
  inversion Hnd as [|? ? Hnotin Hnd']; subst.
  cbn [map fst dict_get dict_set] in *.
  rewrite holds_hint_alone, Nat.eqb_refl. cbn [andb fst].
  rewrite (String.eqb_sym k "bars").
  destruct (String.eqb_spec "bars" k) as [<-|Hne].
  - f_equal. rewrite <- (map_id e) at 2. apply map_ext_in. intros [k' v'] Hin.
    rewrite holds_hint_alone, Nat.eqb_refl. cbn [andb fst].
    destruct (String.eqb_spec k' "bars") as [->|]; [|reflexivity].
    exfalso. apply Hnotin. now apply (in_map fst) in Hin.
  - f_equal. now apply IH.
Qed.

Lemma write_from_after i b' reg :
  forall j0, (i < j0)%nat -> write_from (fun _ _ => None) i b' j0 reg = reg.
Proof.
  induction reg as [|e reg IH]; intros j0 Hlt; simpl; [reflexivity|].
  rewrite write_entry_other by lia. now rewrite IH by lia.
Qed.

Lemma write_from_alone i b' s rest done :
  NoDup (map fst s) -> dict_mem s "bars" = true ->
  forall j0, (j0 + List.length done = i)%nat ->
    write_from (fun _ _ => None) i b' j0 (done ++ s :: rest)
    = done ++ dict_set s "bars" b' :: rest.
Proof.
  intros Hnd Hm. induction done as [|e done IH]; intros j0 Hj; simpl in *.
  - rewrite Nat.add_0_r in Hj. subst j0.
    rewrite write_entry_self by assumption. now rewrite write_from_after by lia.
  - rewrite write_entry_other by lia. now rewrite IH by lia.
Qed.

Lemma view_of_rest (p : Flot * res (list dict)) (s' : dict) :
  (fst (let (self', r) := p in (self', bs <- r ;; Ok (s' :: bs))),
   match snd (let (self', r) := p in (self', bs <- r ;; Ok (s' :: bs))) with
   | Ok _ => Ok (_series (fst (let (self', r) := p in
                               (self', bs <- r ;; Ok (s' :: bs)))))
   | Raise e => Raise e
   end)
  = (fst p, match snd p with
            | Ok _ => Ok (_series (fst p))
            | Raise e => Raise e
            end).
Proof. destruct p as [st [bs|e]]; reflexivity. Qed.

(** The result of [series] with the view read off the instance. *)
Lemma prepare_all_shared opts todo :
  Forall (fun e => NoDup (map fst e)) todo ->
  forall done,
    series_shared_from (fun _ _ => None) (mkFlot (done ++ todo) opts)
                       (List.length done) (List.length todo)
    = (fst (prepare_all opts done todo),
       match snd (prepare_all opts done todo) with
       | Ok _ => Ok (_series (fst (prepare_all opts done todo)))
       | Raise e => Raise e
       end).
Proof.
  induction 1 as [|s todo Hs _ IH]; intros done.
  - simpl. now rewrite app_nil_r.
  - cbn [List.length series_shared_from prepare_all _series].
    rewrite nth_error_app2, Nat.sub_diag by lia. cbn [nth_error].
    assert (IHs : forall s' : dict,
               series_shared_from (fun _ _ => None)
                 (mkFlot (done ++ s' :: todo) opts)
                 (S (List.length done)) (List.length todo)
               = (fst (prepare_all opts (done ++ [s']) todo),
                  match snd (prepare_all opts (done ++ [s']) todo) with
                  | Ok _ => Ok (_series (fst (prepare_all opts (done ++ [s']) todo)))
                  | Raise e => Raise e
                  end)).
    { intros s'. specialize (IH (done ++ [s'])).
      rewrite <- app_assoc in IH. cbn [app] in IH.
      now rewrite length_app, Nat.add_1_r in IH. }
    unfold prepare_series_shared, prepare_series. unfold dict in *.
    destruct (dict_mem s "bars") eqn:Hm.
    2:{ rewrite IHs. symmetry. apply view_of_rest. }
    destruct (calculate_bar_width (mkFlot (done ++ s :: todo) opts)) as [w|e];
      cbn [bind _series _options]; [|reflexivity].
    destruct (truthy (VFloat w)).
    2:{ rewrite IHs. symmetry. apply view_of_rest. }
    destruct (getitem s "bars") as [b|e]; cbn [bind]; [|reflexivity].
    destruct (setitem b "barWidth" (VFloat w)) as [b'|e]; cbn [bind]; [|reflexivity].
    rewrite (write_from_alone _ b' s todo done Hs Hm O) by reflexivity.
    rewrite IHs. symmetry. apply view_of_rest.
Qed.

Lemma view_read_off (p : Flot * res (list dict)) :
  (forall st view, p = (st, Ok view) -> _series st = view) ->
  (fst p, match snd p with
          | Ok _ => Ok (_series (fst p))
          | Raise e => Raise e
          end) = p.
Proof.
  destruct p as [st [view|e]]; intros Hp; cbn [fst snd]; [|reflexivity].
  now rewrite (Hp st view eq_refl).
Qed.

(** X18: when every hint object is held at one place only, the read
    with the write made into the object is the read of [series]: the
    same view, or the same error, and the same instance left behind (for
    entries that hold each key once, as Python dicts do). *)
Theorem series_shared_alone self :
  Forall (fun e => NoDup (map fst e)) (_series self) ->
  series_shared (fun _ _ => None) self = series self.
Proof.
  intros Hnd. destruct self as [reg opts]. unfold series_shared, series.
  cbn [_series _options] in *.
  etransitivity; [exact (prepare_all_shared opts reg Hnd [])|].
  apply view_read_off. intros st view Hp.
  now apply prepare_all_view in Hp as [-> _].
Qed.

End UnsharedHints.


(** The same instance evaluated: the width is written under ['lines']
    as under ['bars'], and not under ['points'], which holds a dict of
    its own. *)
Example series_shared_bars_and_lines :
  let d := VDict [("show", VBool true)] in
  let d' := VDict [("show", VBool true); ("barWidth", VFloat 2)] in
  let data := VList [VList [VInt 0; VInt 1]; VList [VInt 4; VInt 2]] in
  let obj : places :=
    fun j k => if String.eqb k "bars" || String.eqb k "lines" then Some 1%nat
               else None in
  snd (series_shared obj
         (mkFlot [[("data", data); ("bars", d); ("lines", d); ("points", d)]]
                 (VDict [])))
  = Ok [[("data", data); ("bars", d'); ("lines", d'); ("points", d)]].
Proof. reflexivity. Qed.

Lemma series_shared_alone_witness :
  let s := [("data", VList [VList [VInt 0; VInt 1]; VList [VInt 4; VInt 2]]);
            ("bars", VDict [("show", VBool true)])] in
  series_shared (fun _ _ => None) (mkFlot [s; [("data", VInt 3)]] (VDict []))
  = series (mkFlot [s; [("data", VInt 3)]] (VDict [])).
Proof.
  intros s.
  apply (series_shared_alone (mkFlot [s; [("data", VInt 3)]] (VDict []))).
  repeat constructor; simpl; intuition discriminate.
Defined.
